(** * clp-wasm: the IR stream decoder, embedded and verified

    A shallow embedding of [src/ClpIrV1Decoder.cpp] (event buffering and range
    decoding) and of [src/clp_ffi_js/ir/StreamReader.cpp] (reader creation).

    Conventions.
    - [size_t] values are numbers of type [N]; the one place where the code
      does arithmetic on them writes the 32-bit wrap-around out.
    - A C++ function that may throw returns an [outcome]; the object it was
      called on keeps whatever it had mutated before the throw.
    - The CLP core library, the JSON parser and the Emscripten runtime are
      not part of this repository.  The message decoder, the variable codec,
      the timestamp pattern, the reader, the parser and [UTF8ToString] are
      parameters of the sections below; the log-event deserializer is given
      by the results its calls deliver on a stream. *)

From Stdlib Require Import String Ascii List NArith ZArith Bool Lia DecimalString.
Import ListNotations.

Local Open Scope N_scope.

(** ** Exceptions and results shared by both translation units *)

(** The members of [clp::ErrorCode] this repository throws. *)
Inductive ErrorCode : Type :=
| ErrorCode_Unsupported
| ErrorCode_Corrupt
| ErrorCode_MetadataCorrupted
| ErrorCode_Failure.

(** What can leave a function by [throw].  The file name, line and text a
    [ClpJsException] carries are left out; its error code is kept. *)
Inductive exception : Type :=
| ClpJsException (code : ErrorCode)
| ClpFfiJsException (code : ErrorCode)
| std_out_of_range.

Inductive outcome (A : Type) : Type :=
| Returns (a : A)
| Throws (e : exception).

Arguments Returns {A} a.
Arguments Throws {A} e.

(** Severity of a line written through spdlog. *)
Inductive spdlog_level : Type := SPDLOG_INFO | SPDLOG_WARN | SPDLOG_ERROR | SPDLOG_CRITICAL.

(** What a call does besides computing its result, in the order it happens:
    one [Deserialize] per call of [deserialize_log_event], one [FreeDataBuffer]
    each time the compressed input's storage is given back, one [Spdlog] per
    diagnostic line. *)
Inductive effect : Type :=
| Deserialize
| FreeDataBuffer
| Spdlog (level : spdlog_level) (text : string).

Definition is_free (e : effect) : bool :=
  match e with FreeDataBuffer => true | _ => false end.

Definition is_deserialize (e : effect) : bool :=
  match e with Deserialize => true | _ => false end.

Definition num_frees (tr : list effect) : nat := length (filter is_free tr).

Definition num_deserialize_calls (tr : list effect) : nat :=
  length (filter is_deserialize tr).

(** ** [size_t] on the wasm32 target *)

Definition size_t_modulus : N := 2 ^ 32.

Definition size_t_add (a b : N) : N := (a + b) mod size_t_modulus.

(** ** [std::vector]: the elements and the allocated capacity *)

Record vector (A : Type) : Type := mkVector {
  elems : list A;
  capacity : N
}.

Arguments mkVector {A} elems capacity.
Arguments elems {A} v.
Arguments capacity {A} v.

Definition empty_vector {A : Type} : vector A := mkVector [] 0.

Definition size {A : Type} (v : vector A) : N := N.of_nat (length (elems v)).

(** [reserve(n)]: grows the allocation to [n] when it is smaller. *)
Definition reserve {A : Type} (v : vector A) (n : N) : vector A :=
  if capacity v <? n then mkVector (elems v) n else v.

(** [emplace_back]: appends; a full vector doubles its allocation first. *)
Definition emplace_back {A : Type} (v : vector A) (x : A) : vector A :=
  mkVector (elems v ++ [x])
           (if size v <? capacity v then capacity v
            else N.max (2 * capacity v) (size v + 1)).

(** ** [std::string] operations the decoder uses *)

(** [s.substr(pos)]: throws [std::out_of_range] when [pos > s.size()]. *)
Definition substr (s : string) (pos : N) : outcome string :=
  if N.of_nat (String.length s) <? pos then Throws std_out_of_range
  else Returns (substring (N.to_nat pos) (String.length s - N.to_nat pos) s).

(** [s.starts_with(p)]. *)
Definition starts_with (s p : string) : bool := prefix p s.

(** [s.c_str()] read as a C string: the characters before the first NUL. *)
Fixpoint c_str (s : string) : string :=
  match s with
  | EmptyString => EmptyString
  | String c rest => if Ascii.eqb c Ascii.zero then EmptyString else String c (c_str rest)
  end.

(** What [{}] prints for an integer. *)
Definition format_integer (n : N) : string := NilZero.string_of_uint (N.to_uint n).

Module ClpIrV1Decoder.

(** *** Constants of the translation unit *)

Definition cDefaultNumLogEvents : N := 500000.
Definition cFullRangeEndIdx : N := 0.
Definition cLogLevelNone : N := 0.

(** *** Data *)

(** [clp::ir::LogEvent<four_byte_encoded_variable_t>], by its four getters. *)
Record LogEvent : Type := mkLogEvent {
  get_logtype : string;
  get_encoded_vars : list Z;
  get_dict_vars : list string;
  get_timestamp : Z
}.

(** The values of [std::errc] the deserializer reports. *)
Inductive errc : Type :=
| no_message_available
| result_out_of_range
| protocol_error
| protocol_not_supported.

(** [clp::ir::LogEventDeserializer] belongs to the CLP core library.  On a
    given stream its successive [deserialize_log_event] calls deliver the log
    events of the stream's well-formed records, then an error: [pending] are
    the events still to come and [terminal] the error behind them. *)
Record LogEventDeserializer : Type := mkDeserializer {
  pending : list LogEvent;
  terminal : errc
}.

Definition deserialize_log_event (ds : LogEventDeserializer)
  : (LogEvent + errc) * LogEventDeserializer :=
  match pending ds with
  | ev :: rest => (inl ev, mkDeserializer rest (terminal ds))
  | [] => (inr (terminal ds), ds)
  end.

(** The object.  [m_data_buffer] is the [unique_ptr] to the compressed input
    ([None] is the null pointer); [m_zstd_decompressor] only reads from that
    buffer on behalf of the deserializer and has no field of its own here. *)
Record t (DataBuffer TimestampPattern : Type) : Type := mkDecoder {
  m_data_buffer : option DataBuffer;
  m_deserializer : LogEventDeserializer;
  m_log_events : vector LogEvent;
  m_ts_pattern : TimestampPattern
}.

Arguments mkDecoder {DataBuffer TimestampPattern}.
Arguments m_data_buffer {DataBuffer TimestampPattern}.
Arguments m_deserializer {DataBuffer TimestampPattern}.
Arguments m_log_events {DataBuffer TimestampPattern}.
Arguments m_ts_pattern {DataBuffer TimestampPattern}.

(** The object [create] hands out: the constructor moves its three arguments
    in and default-constructs [m_log_events]. *)
Definition construct {DataBuffer TimestampPattern : Type}
  (data_buffer : DataBuffer) (deserializer : LogEventDeserializer)
  (ts_pattern : TimestampPattern) : t DataBuffer TimestampPattern :=
  mkDecoder (Some data_buffer) deserializer empty_vector ts_pattern.

(** The object [build_idx] hands to JavaScript. *)
Record BuildResults : Type := mkBuildResults {
  numValidEvents : N;
  numInvalidEvents : N
}.

(** One element of the array [decode] hands to JavaScript:
    [message, timestamp, log level, event number]. *)
Record DecodedResult : Type := mkDecodedResult {
  message_of : string;
  timestamp_of : Z;
  log_level_of : N;
  event_number_of : N
}.

(** The calls [generic_decode_message] makes on the four handlers. *)
Inductive handler_call : Type :=
| constant_call (value : string) (begin_pos length : N)
| encoded_int_call (value : Z)
| encoded_float_call (encoded_float : Z)
| dict_var_call (dict_var : string).

(** [clp::ffi::ir_stream::DecodingException], by its error code. *)
Inductive DecodingException : Type :=
| mkDecodingException (error_code : N).

(** [e.get_error_code()]: the [clp::ErrorCode], as the number it stands for. *)
Definition get_error_code (e : DecodingException) : N :=
  match e with mkDecodingException error_code => error_code end.

(** The line the [catch] block of [decode] writes. *)
Definition decode_failure_line (e : DecodingException) : effect :=
  Spdlog SPDLOG_ERROR
    ("Failed to decode. Error Code: " ++ format_integer (get_error_code e))%string.

Section Decoder.

(** * The CLP core library and the constants header, as parameters *)

Variables DataBuffer TimestampPattern : Type.

(** [generic_decode_message<true>(logtype, encoded_vars, dict_vars, ...)]: the
    handler calls it makes, in order, and the exception that ends it, if any.
    It hands [constant_call] only ranges that lie inside [value]. *)
Variable generic_decode_message :
  string -> list Z -> list string -> list handler_call * option DecodingException.

Variable decode_integer_var : Z -> string.
Variable decode_float_var : Z -> string.

(** [TimestampPattern::insert_formatted_timestamp(timestamp, message)]: the
    message it leaves in its second argument. *)
Variable insert_formatted_timestamp : TimestampPattern -> Z -> string -> string.

(** [cLogLevelNames] of [constants.hpp]. *)
Variable cLogLevelNames : list string.

(** [UTF8ToString] of the Emscripten runtime: the JavaScript string for a C
    string. *)
Variable UTF8ToString : string -> string.

Local Abbreviation decoder := (t DataBuffer TimestampPattern).

(** * [get_estimated_num_events] *)

Definition get_estimated_num_events (d : decoder) : N := size (m_log_events d).

(** * [build_idx] *)

(** The [while (true)] loop of [build_idx], by recursion on the events the
    deserializer still holds ([build_loop_unfold] gives it back as the loop over
    [deserialize_log_event]).  It yields the exception thrown, if any, the
    deserializer and the vector as the loop leaves them, and the effects. *)
Fixpoint build_loop (pending : list LogEvent) (terminal : errc)
  (log_events : vector LogEvent)
  : option exception * LogEventDeserializer * vector LogEvent * list effect :=
  match pending with
  | ev :: rest =>
      let '(thrown, ds, v, tr) := build_loop rest terminal (emplace_back log_events ev) in
      (thrown, ds, v, Deserialize :: tr)
  | [] =>
      let ds := mkDeserializer [] terminal in
      match terminal with
      | no_message_available => (None, ds, log_events, [Deserialize])
      | result_out_of_range =>
          (None, ds, log_events,
           [Deserialize; Spdlog SPDLOG_ERROR "File contains an incomplete IR stream"])
      | _ => (Some (ClpJsException ErrorCode_Corrupt), ds, log_events, [Deserialize])
      end
  end.

(** [m_data_buffer.reset(nullptr)]: frees what the pointer owns, if anything. *)
Definition reset_data_buffer (p : option DataBuffer) : option DataBuffer * list effect :=
  match p with
  | Some _ => (None, [FreeDataBuffer])
  | None => (None, [])
  end.

Definition build_results (d : decoder) : BuildResults :=
  mkBuildResults (size (m_log_events d)) 0.

Definition build_idx (d : decoder) (begin_idx end_idx : N)
  : outcome BuildResults * decoder * list effect :=
  if negb (0 =? begin_idx) && negb (cFullRangeEndIdx =? end_idx) then
    (Throws (ClpJsException ErrorCode_Unsupported), d, [])
  else if 0 =? capacity (m_log_events d) then
    let reserved := reserve (m_log_events d) cDefaultNumLogEvents in
    let '(thrown, ds, v, tr) :=
      build_loop (pending (m_deserializer d)) (terminal (m_deserializer d)) reserved in
    match thrown with
    | Some e =>
        (Throws e, mkDecoder (m_data_buffer d) ds v (m_ts_pattern d), tr)
    | None =>
        let '(p, tr_free) := reset_data_buffer (m_data_buffer d) in
        let d' := mkDecoder p ds v (m_ts_pattern d) in
        (Returns (build_results d'), d', tr ++ tr_free)
    end
  else (Returns (build_results d), d, []).

(** * [decode] *)

(** The four lambdas: each appends to [message]. *)
Definition constant_handler (message value : string) (begin_pos length : N) : string :=
  (message ++ substring (N.to_nat begin_pos) (N.to_nat length) value)%string.

Definition encoded_int_handler (message : string) (value : Z) : string :=
  (message ++ decode_integer_var value)%string.

Definition encoded_float_handler (message : string) (encoded_float : Z) : string :=
  (message ++ decode_float_var encoded_float)%string.

Definition dict_var_handler (message dict_var : string) : string :=
  (message ++ dict_var)%string.

Definition handle (message : string) (c : handler_call) : string :=
  match c with
  | constant_call value begin_pos length => constant_handler message value begin_pos length
  | encoded_int_call value => encoded_int_handler message value
  | encoded_float_call encoded_float => encoded_float_handler message encoded_float
  | dict_var_call dict_var => dict_var_handler message dict_var
  end.

(** The [try] block on a cleared [message]: the text the handlers have built,
    or the exception caught. *)
Definition decode_message (log_event : LogEvent) : string + DecodingException :=
  let '(calls, thrown) :=
    generic_decode_message (get_logtype log_event) (get_encoded_vars log_event)
                           (get_dict_vars log_event) in
  match thrown with
  | Some e => inr e
  | None => inl (fold_left handle calls EmptyString)
  end.

(** The [for (i = 1; i < cLogLevelNames.size(); ++i)] loop, entered at index
    [i] with [names] the table entries from [i] on. *)
Fixpoint scan_log_level (names : list string) (i : N) (message : string) : outcome N :=
  match names with
  | [] => Returns cLogLevelNone
  | name :: rest =>
      match substr message 1 with
      | Throws e => Throws e
      | Returns tail =>
          if starts_with tail name then Returns i
          else scan_log_level rest (i + 1) message
      end
  end.

Definition find_log_level (message : string) : outcome N :=
  scan_log_level (skipn 1 cLogLevelNames) 1 message.

(** The body of the range-based [for] over [log_events_span]; [offset] is
    [&log_event - log_events_span.data()] and [results] the array so far.
    The element pushed holds [UTF8ToString] of [message.c_str()]. *)
Fixpoint decode_loop (ts_pattern : TimestampPattern) (begin_idx : N)
  (span : list LogEvent) (offset : N) (results : list DecodedResult)
  : outcome (list DecodedResult) * list effect :=
  match span with
  | [] => (Returns results, [])
  | log_event :: rest =>
      match decode_message log_event with
      | inr e => (Returns results, [decode_failure_line e])
      | inl message =>
          match find_log_level message with
          | Throws e => (Throws e, [])
          | Returns log_level =>
              let message :=
                insert_formatted_timestamp ts_pattern (get_timestamp log_event) message in
              decode_loop ts_pattern begin_idx rest (offset + 1)
                (results ++
                 [mkDecodedResult (UTF8ToString (c_str message))
                    (get_timestamp log_event) log_level
                    (size_t_add (size_t_add begin_idx offset) 1)])
          end
      end
  end.

(** The span from [m_log_events.begin() + begin_idx] to
    [m_log_events.begin() + end_idx]. *)
Definition log_events_span (d : decoder) (begin_idx end_idx : N) : list LogEvent :=
  firstn (N.to_nat (end_idx - begin_idx))
         (skipn (N.to_nat begin_idx) (elems (m_log_events d))).

(** [decode]: [None] is [emscripten::val::null()]. *)
Definition decode (d : decoder) (begin_idx end_idx : N)
  : outcome (option (list DecodedResult)) * list effect :=
  if (begin_idx <? 0) || (size (m_log_events d) <? end_idx) || (end_idx <=? begin_idx) then
    (Returns None, [])
  else
    match decode_loop (m_ts_pattern d) begin_idx
            (log_events_span d begin_idx end_idx) 0 [] with
    | (Returns results, tr) => (Returns (Some results), tr)
    | (Throws e, tr) => (Throws e, tr)
    end.

(** * The operations a caller can make, for statements about later calls *)

Inductive operation : Type :=
| call_build_idx (begin_idx end_idx : N)
| call_decode (begin_idx end_idx : N)
| call_get_estimated_num_events.

Definition run_operation (d : decoder) (op : operation) : decoder * list effect :=
  match op with
  | call_build_idx begin_idx end_idx =>
      let '(_, d', tr) := build_idx d begin_idx end_idx in (d', tr)
  | call_decode begin_idx end_idx => (d, snd (decode d begin_idx end_idx))
  | call_get_estimated_num_events => (d, [])
  end.

Fixpoint run_operations (d : decoder) (ops : list operation) : decoder * list effect :=
  match ops with
  | [] => (d, [])
  | op :: rest =>
      let '(d', tr) := run_operation d op in
      let '(d'', tr') := run_operations d' rest in
      (d'', tr ++ tr')
  end.

(** * Facts about the vector *)

Lemma capacity_emplace_back (A : Type) (v : vector A) (x : A) :
  capacity v <= capacity (emplace_back v x).
Proof.
  unfold emplace_back; cbn [capacity].
  destruct (size v <? capacity v); lia.
Qed.

Lemma capacity_reserve (A : Type) (v : vector A) (n : N) :
  n <= capacity (reserve v n) /\ elems (reserve v n) = elems v.
Proof.
  unfold reserve. destruct (N.ltb_spec (capacity v) n); simpl; split; auto; lia.
Qed.

(** * The build loop *)

(** The recursion on [pending] is the loop of the source: one call of
    [deserialize_log_event], then append and go round again, or leave. *)
Lemma build_loop_unfold (ds : LogEventDeserializer) (v : vector LogEvent) :
  build_loop (pending ds) (terminal ds) v =
  match deserialize_log_event ds with
  | (inl ev, ds') =>
      let '(thrown, ds'', v', tr) :=
        build_loop (pending ds') (terminal ds') (emplace_back v ev) in
      (thrown, ds'', v', Deserialize :: tr)
  | (inr error, ds') =>
      match error with
      | no_message_available => (None, ds', v, [Deserialize])
      | result_out_of_range =>
          (None, ds', v,
           [Deserialize; Spdlog SPDLOG_ERROR "File contains an incomplete IR stream"])
      | _ => (Some (ClpJsException ErrorCode_Corrupt), ds', v, [Deserialize])
      end
  end.
Proof.
  destruct ds as [p term]; unfold deserialize_log_event; simpl.
  destruct p as [|ev rest]; simpl; [destruct term|]; reflexivity.
Qed.

(** What the loop throws and logs once the events are used up. *)
Definition thrown_at (terminal : errc) : option exception :=
  match terminal with
  | no_message_available | result_out_of_range => None
  | _ => Some (ClpJsException ErrorCode_Corrupt)
  end.

Definition logged_at (terminal : errc) : list effect :=
  match terminal with
  | result_out_of_range =>
      [Spdlog SPDLOG_ERROR "File contains an incomplete IR stream"]
  | _ => []
  end.

Lemma build_loop_result (evs : list LogEvent) (term : errc) (v : vector LogEvent) :
  exists v',
    build_loop evs term v =
      (thrown_at term, mkDeserializer [] term, v',
       repeat Deserialize (S (length evs)) ++ logged_at term) /\
    elems v' = elems v ++ evs /\ capacity v <= capacity v'.
Proof.
  revert v; induction evs as [|ev evs IH]; intros v.
  - exists v. simpl. rewrite app_nil_r. split; [|split; [reflexivity|lia]].
    destruct term; reflexivity.
  - destruct (IH (emplace_back v ev)) as (v' & E & Hel & Hcap).
    exists v'. simpl. rewrite E. split; [reflexivity|]. split.
    + rewrite Hel. simpl. rewrite <- app_assoc. reflexivity.
    + pose proof (capacity_emplace_back _ v ev). lia.
Qed.

Lemma num_frees_repeat_deserialize (n : nat) (term : errc) :
  num_frees (repeat Deserialize n ++ logged_at term) = 0%nat.
Proof.
  unfold num_frees. rewrite filter_app, length_app.
  replace (filter is_free (repeat Deserialize n)) with (@nil effect).
  - destruct term; reflexivity.
  - induction n; simpl; auto.
Qed.

(** * What one [build_idx] call on a new object does *)

Lemma build_idx_construct (buf : DataBuffer) (evs : list LogEvent) (term : errc)
  (ts : TimestampPattern) (begin_idx end_idx : N) :
  begin_idx = 0 \/ end_idx = 0 ->
  exists v,
    elems v = evs /\ cDefaultNumLogEvents <= capacity v /\
    build_idx (construct buf (mkDeserializer evs term) ts) begin_idx end_idx =
    match thrown_at term with
    | Some e =>
        (Throws e, mkDecoder (Some buf) (mkDeserializer [] term) v ts,
         repeat Deserialize (S (length evs)) ++ logged_at term)
    | None =>
        (Returns (mkBuildResults (N.of_nat (length evs)) 0),
         mkDecoder None (mkDeserializer [] term) v ts,
         (repeat Deserialize (S (length evs)) ++ logged_at term) ++ [FreeDataBuffer])
    end.
Proof.
  intros Hguard.
  destruct (build_loop_result evs term (reserve empty_vector cDefaultNumLogEvents))
    as (v & E & Hel & Hcap).
  exists v. split; [exact Hel|]. split; [exact Hcap|].
  unfold build_idx, construct.
  replace (negb (0 =? begin_idx) && negb (cFullRangeEndIdx =? end_idx)) with false
    by (unfold cFullRangeEndIdx; destruct Hguard; subst; simpl;
        rewrite ?andb_false_r; reflexivity).
  cbn [m_log_events m_deserializer m_data_buffer m_ts_pattern pending terminal
       empty_vector capacity].
  change (0 =? 0) with true. cbv iota.
  rewrite E. destruct (thrown_at term); [reflexivity|].
  cbn [reset_data_buffer]. unfold build_results, size.
  cbn [m_log_events]. rewrite Hel. reflexivity.
Qed.

(** Once the vector owns storage, [build_idx] only reports. *)
Lemma build_idx_built (d : decoder) (begin_idx end_idx : N) :
  capacity (m_log_events d) <> 0 ->
  build_idx d begin_idx end_idx =
  (if negb (0 =? begin_idx) && negb (cFullRangeEndIdx =? end_idx)
   then Throws (ClpJsException ErrorCode_Unsupported)
   else Returns (build_results d), d, []).
Proof.
  intros Hcap. unfold build_idx.
  destruct (negb (0 =? begin_idx) && negb (cFullRangeEndIdx =? end_idx)); [reflexivity|].
  destruct (N.eqb_spec 0 (capacity (m_log_events d))); [congruence|reflexivity].
Qed.

(** * The decode loop *)

(** An event whose message decodes, to a text that has a first character. *)
Definition renders (log_event : LogEvent) : bool :=
  match decode_message log_event with
  | inl message => negb (String.length message =? 0)%nat
  | inr _ => false
  end.

(** [results] are the elements the loop pushes for the events [span], the
    first of them at offset [offset] of a range that begins at [begin_idx]. *)
Inductive batch (ts_pattern : TimestampPattern) (begin_idx : N)
  : N -> list LogEvent -> list DecodedResult -> Prop :=
| batch_nil (offset : N) : batch ts_pattern begin_idx offset [] []
| batch_cons (offset : N) (log_event : LogEvent) (span : list LogEvent)
    (message : string) (log_level : N) (results : list DecodedResult) :
    decode_message log_event = inl message ->
    find_log_level message = Returns log_level ->
    batch ts_pattern begin_idx (offset + 1) span results ->
    batch ts_pattern begin_idx offset (log_event :: span)
      (mkDecodedResult
         (UTF8ToString
            (c_str (insert_formatted_timestamp ts_pattern (get_timestamp log_event)
                      message)))
         (get_timestamp log_event) log_level
         (size_t_add (size_t_add begin_idx offset) 1) :: results).

Lemma batch_length ts b off span results :
  batch ts b off span results -> length results = length span.
Proof. induction 1; simpl; congruence. Qed.

Lemma batch_nth ts b off span results :
  batch ts b off span results ->
  forall j log_event,
    nth_error span j = Some log_event ->
    exists message log_level,
      decode_message log_event = inl message /\
      find_log_level message = Returns log_level /\
      nth_error results j =
        Some (mkDecodedResult
                (UTF8ToString
                   (c_str (insert_formatted_timestamp ts (get_timestamp log_event)
                             message)))
                (get_timestamp log_event) log_level
                (size_t_add (size_t_add b (off + N.of_nat j)) 1)).
Proof.
  induction 1 as [|off ev span m l rs Hm Hl _ IH]; intros j ev' Hj.
  - destruct j; discriminate.
  - destruct j as [|j]; simpl in Hj.
    + injection Hj as <-. exists m, l. rewrite N.add_0_r. auto.
    + destruct (IH j ev' Hj) as (m' & l' & H1 & H2 & H3).
      exists m', l'. split; [exact H1|]. split; [exact H2|].
      cbn [nth_error]. rewrite H3.
      replace (off + N.of_nat (S j)) with (off + 1 + N.of_nat j) by lia.
      reflexivity.
Qed.

Lemma substr_1_nonempty (message : string) :
  String.length message <> 0%nat ->
  substr message 1 =
  Returns (substring 1 (String.length message - 1) message).
Proof.
  intros H. unfold substr.
  destruct (N.ltb_spec (N.of_nat (String.length message)) 1); [lia|reflexivity].
Qed.

Lemma scan_log_level_returns (names : list string) (i : N) (message : string) :
  String.length message <> 0%nat ->
  exists log_level, scan_log_level names i message = Returns log_level.
Proof.
  intros H. revert i; induction names as [|name rest IH]; intros i; simpl.
  - eauto.
  - rewrite (substr_1_nonempty _ H).
    destruct (starts_with _ name); eauto.
Qed.

Lemma renders_inv (log_event : LogEvent) :
  renders log_event = true ->
  exists message log_level,
    decode_message log_event = inl message /\
    String.length message <> 0%nat /\
    find_log_level message = Returns log_level.
Proof.
  unfold renders. destruct (decode_message log_event) as [m|e]; [|discriminate].
  intros H. apply negb_true_iff, Nat.eqb_neq in H.
  destruct (scan_log_level_returns (skipn 1 cLogLevelNames) 1 m H) as (l & Hl).
  exists m, l. auto.
Qed.

(** The loop walks through a run of events that render and carries on behind
    it with their elements appended. *)
Lemma decode_loop_renders ts b (good : list LogEvent) :
  forallb renders good = true ->
  forall off, exists results,
    batch ts b off good results /\
    forall rest acc,
      decode_loop ts b (good ++ rest) off acc =
      decode_loop ts b rest (off + N.of_nat (length good)) (acc ++ results).
Proof.
  induction good as [|ev good IH]; intros Hgood off.
  - exists []. split; [constructor|]. intros rest acc.
    simpl. rewrite N.add_0_r, app_nil_r. reflexivity.
  - simpl in Hgood. apply andb_true_iff in Hgood as [Hev Hgood].
    destruct (renders_inv ev Hev) as (m & l & Hm & _ & Hl).
    destruct (IH Hgood (off + 1)) as (rs & Hrs & Hloop).
    eexists. split; [econstructor; eassumption|].
    intros rest acc. cbn [app decode_loop]. rewrite Hm, Hl, Hloop.
    rewrite <- app_assoc. cbn [app length].
    replace (off + N.of_nat (S (length good))) with (off + 1 + N.of_nat (length good))
      by lia.
    reflexivity.
Qed.

(** Whatever the loop returns extends the array it started from, element [j]
    of the extension coming from event [j] of the span. *)
Lemma decode_loop_elements ts b (span : list LogEvent) :
  forall off acc results tr,
    decode_loop ts b span off acc = (Returns results, tr) ->
    exists new,
      results = acc ++ new /\
      forall j r,
        nth_error new j = Some r ->
        exists log_event message,
          nth_error span j = Some log_event /\
          decode_message log_event = inl message /\
          message_of r =
            UTF8ToString
              (c_str (insert_formatted_timestamp ts (get_timestamp log_event)
                        message)) /\
          timestamp_of r = get_timestamp log_event /\
          find_log_level message = Returns (log_level_of r) /\
          event_number_of r = size_t_add (size_t_add b (off + N.of_nat j)) 1.
Proof.
  induction span as [|ev span IH]; intros off acc results tr H; simpl in H.
  - injection H as <- <-. exists []. rewrite app_nil_r. split; [reflexivity|].
    intros [|j] r Hr; discriminate.
  - destruct (decode_message ev) as [m|e] eqn:Hm.
    + destruct (find_log_level m) as [l|e] eqn:Hl; [|discriminate].
      destruct (IH _ _ _ _ H) as (new & -> & Hnew).
      eexists (_ :: new). rewrite <- app_assoc. split; [reflexivity|].
      intros [|j] r Hr; simpl in Hr.
      * injection Hr as <-. exists ev, m. simpl. rewrite N.add_0_r. auto 7.
      * destruct (Hnew j r Hr) as (ev' & m' & H1 & H2 & H3 & H4 & H5 & H6).
        exists ev', m'. cbn [nth_error]. repeat (split; [assumption|]).
        rewrite H6.
        replace (off + N.of_nat (S j)) with (off + 1 + N.of_nat j) by lia.
        reflexivity.
    + injection H as <- <-. exists []. rewrite app_nil_r. split; [reflexivity|].
      intros [|j] r Hr; discriminate.
Qed.

(** [decode] looks at the range first and only then at the events. *)
Lemma decode_in_range (d : decoder) (begin_idx end_idx : N) :
  begin_idx < end_idx <= size (m_log_events d) ->
  decode d begin_idx end_idx =
  match decode_loop (m_ts_pattern d) begin_idx
          (log_events_span d begin_idx end_idx) 0 [] with
  | (Returns results, tr) => (Returns (Some results), tr)
  | (Throws e, tr) => (Throws e, tr)
  end.
Proof.
  intros [H1 H2]. unfold decode.
  destruct (N.ltb_spec begin_idx 0); [lia|].
  destruct (N.ltb_spec (size (m_log_events d)) end_idx); [lia|].
  destruct (N.leb_spec end_idx begin_idx); [lia|]. reflexivity.
Qed.

Lemma decode_out_of_range (d : decoder) (begin_idx end_idx : N) :
  size (m_log_events d) < end_idx \/ end_idx <= begin_idx ->
  decode d begin_idx end_idx = (Returns None, []).
Proof.
  intros H. unfold decode.
  destruct (N.ltb_spec begin_idx 0); [lia|].
  destruct (N.ltb_spec (size (m_log_events d)) end_idx); [reflexivity|].
  destruct (N.leb_spec end_idx begin_idx); [reflexivity|lia].
Qed.

Lemma log_events_span_length (d : decoder) (b e : N) :
  b <= e <= size (m_log_events d) ->
  length (log_events_span d b e) = N.to_nat (e - b).
Proof.
  unfold log_events_span, size. intros H. rewrite length_firstn, length_skipn. lia.
Qed.

Lemma log_events_span_nth (d : decoder) (b e : N) (j : nat) (ev : LogEvent) :
  nth_error (log_events_span d b e) j = Some ev ->
  nth_error (elems (m_log_events d)) (N.to_nat b + j)%nat = Some ev /\
  N.of_nat j < e - b.
Proof.
  unfold log_events_span. rewrite nth_error_firstn.
  destruct (Nat.ltb_spec j (N.to_nat (e - b))); [|discriminate].
  rewrite nth_error_skipn. intros H'. split; [exact H'|lia].
Qed.

Lemma log_events_span_all (d : decoder) :
  log_events_span d 0 (size (m_log_events d)) = elems (m_log_events d).
Proof.
  unfold log_events_span, size. rewrite N.sub_0_r, Nat2N.id. simpl.
  apply firstn_all.
Qed.

(** [results] holds one element per event of [span], in the same order. *)
Definition one_per_event (ts_pattern : TimestampPattern) (begin_idx : N)
  (span : list LogEvent) (results : list DecodedResult) : Prop :=
  length results = length span /\
  forall j log_event,
    nth_error span j = Some log_event ->
    exists message log_level,
      decode_message log_event = inl message /\
      find_log_level message = Returns log_level /\
      nth_error results j =
        Some (mkDecodedResult
                (UTF8ToString
                   (c_str (insert_formatted_timestamp ts_pattern
                             (get_timestamp log_event) message)))
                (get_timestamp log_event) log_level
                (size_t_add (size_t_add begin_idx (N.of_nat j)) 1)).

Lemma batch_one_per_event ts b span results :
  batch ts b 0 span results -> one_per_event ts b span results.
Proof.
  intros H. split; [eapply batch_length; eassumption|].
  intros j ev Hj. destruct (batch_nth _ _ _ _ _ H j ev Hj) as (m & l & H1 & H2 & H3).
  exists m, l. rewrite N.add_0_l in H3. auto.
Qed.

(** [decode] writes diagnostics at most; it frees and deserializes nothing. *)
Lemma decode_loop_trace ts b (span : list LogEvent) :
  forall off acc,
    num_frees (snd (decode_loop ts b span off acc)) = 0%nat /\
    num_deserialize_calls (snd (decode_loop ts b span off acc)) = 0%nat.
Proof.
  induction span as [|ev span IH]; intros off acc; simpl; [auto|].
  destruct (decode_message ev) as [message|thrown]; [|auto].
  destruct (find_log_level message); [apply IH|auto].
Qed.

Lemma decode_trace (d : decoder) (b e : N) :
  num_frees (snd (decode d b e)) = 0%nat /\
  num_deserialize_calls (snd (decode d b e)) = 0%nat.
Proof.
  unfold decode.
  destruct (_ || _); [auto|].
  pose proof (decode_loop_trace (m_ts_pattern d) b (log_events_span d b e) 0 []) as H.
  destruct (decode_loop _ _ _ _ _) as [[r|x] tr]; exact H.
Qed.

(** [decode] reads the buffered events and the timestamp pattern only. *)
Lemma decode_same_events (d1 d2 : decoder) (b e : N) :
  elems (m_log_events d1) = elems (m_log_events d2) ->
  m_ts_pattern d1 = m_ts_pattern d2 ->
  decode d1 b e = decode d2 b e.
Proof.
  intros H1 H2. unfold decode, log_events_span, size. rewrite H1, H2. reflexivity.
Qed.

(** After the first pass no call changes the object, frees or deserializes. *)
Lemma run_operations_built (d : decoder) (ops : list operation) :
  capacity (m_log_events d) <> 0 ->
  fst (run_operations d ops) = d /\
  num_frees (snd (run_operations d ops)) = 0%nat /\
  num_deserialize_calls (snd (run_operations d ops)) = 0%nat.
Proof.
  intros Hcap. induction ops as [|op ops IH]; simpl; [auto|].
  assert (Hop : fst (run_operation d op) = d /\
  num_frees (snd (run_operation d op)) = 0%nat /\
  num_deserialize_calls (snd (run_operation d op)) = 0%nat).
  { destruct op as [b e|b e|]; simpl.
    - rewrite (build_idx_built d b e Hcap). auto.
    - split; [reflexivity|]. apply decode_trace.
    - auto. }
  destruct (run_operation d op) as [d1 tr1]. simpl in Hop.
  destruct Hop as (-> & Hf & Hd).
  destruct (run_operations d ops) as [d2 tr2]. simpl in IH |- *.
  destruct IH as (-> & Hf2 & Hd2). split; [reflexivity|].
  unfold num_frees, num_deserialize_calls in *.
  rewrite !filter_app, !length_app. lia.
Qed.

Lemma range_guard_passes (begin_idx end_idx : N) :
  begin_idx = 0 \/ end_idx = 0 ->
  negb (0 =? begin_idx) && negb (cFullRangeEndIdx =? end_idx) = false.
Proof.
  unfold cFullRangeEndIdx. intros [-> | ->]; simpl; rewrite ?andb_false_r; reflexivity.
Qed.

(** A call that returned leaves a vector that owns storage, and reports on the
    object as it leaves it. *)
Lemma build_idx_returns_built (d : decoder) (begin_idx end_idx : N)
  (r : BuildResults) (d' : decoder) (tr : list effect) :
  build_idx d begin_idx end_idx = (Returns r, d', tr) ->
  capacity (m_log_events d') <> 0 /\ r = build_results d'.
Proof.
  unfold build_idx.
  destruct (negb (0 =? begin_idx) && negb (cFullRangeEndIdx =? end_idx)); [discriminate|].
  destruct (N.eqb_spec 0 (capacity (m_log_events d))) as [Hz|Hnz].
  - destruct (build_loop_result (pending (m_deserializer d)) (terminal (m_deserializer d))
                (reserve (m_log_events d) cDefaultNumLogEvents)) as (v & E & _ & Hcap).
    rewrite E. destruct (thrown_at _); [discriminate|].
    destruct (reset_data_buffer (m_data_buffer d)) as [p trf].
    intros H; inversion H; subst; clear H. cbn [m_log_events]. split; [|reflexivity].
    pose proof (capacity_reserve _ (m_log_events d) cDefaultNumLogEvents) as [Hres _].
    unfold cDefaultNumLogEvents in *. lia.
  - intros H; inversion H; subst; clear H. split; [congruence|reflexivity].
Qed.

(** * The claims about [build_idx] *)

(** C10. The object [build_idx] returns reports zero invalid events whatever
    the stream held, also one that broke off mid-record, and its other count is
    the number of events the object buffers. *)
Theorem build_idx_num_invalid_events (d : decoder) (begin_idx end_idx : N)
  (r : BuildResults) (d' : decoder) (tr : list effect) :
  build_idx d begin_idx end_idx = (Returns r, d', tr) ->
  numInvalidEvents r = 0 /\ numValidEvents r = get_estimated_num_events d'.
Proof.
  intros H. apply build_idx_returns_built in H as [_ ->].
  split; reflexivity.
Qed.

(** C4. Once a first [build_idx] has returned, a second one returns the same
    counts, leaves the object as it is (the deserializer and the released
    buffer pointer included) and has no effect: no deserialization call, no
    free, no diagnostic.  With arguments the range check refuses it throws,
    and still touches nothing. *)
Theorem build_idx_idempotent (d : decoder) (begin_idx end_idx : N)
  (r : BuildResults) (d' : decoder) (tr : list effect) :
  build_idx d begin_idx end_idx = (Returns r, d', tr) ->
  forall begin_idx' end_idx',
    exists res,
      build_idx d' begin_idx' end_idx' = (res, d', []) /\
      (begin_idx' = 0 \/ end_idx' = 0 -> res = Returns r).
Proof.
  intros H b' e'. apply build_idx_returns_built in H as [Hcap ->].
  rewrite (build_idx_built d' b' e' Hcap).
  eexists. split; [reflexivity|].
  intros Hguard. rewrite (range_guard_passes _ _ Hguard). reflexivity.
Qed.

(** C1, as the code has it.  A record that is neither the end of the stream
    nor a truncation makes [build_idx] throw [ErrorCode_Corrupt]; the events
    appended before it stay in [m_log_events].  Afterwards
    [get_estimated_num_events] counts them, a further [build_idx] returns
    their count without deserializing, and [decode] answers every range as it
    does on the object a stream that ended behind those events leaves. *)
Theorem build_idx_fatal_keeps_events (buf : DataBuffer) (evs : list LogEvent)
  (term : errc) (ts : TimestampPattern) (begin_idx end_idx : N) :
  begin_idx = 0 \/ end_idx = 0 ->
  term <> no_message_available ->
  term <> result_out_of_range ->
  exists d' tr,
    build_idx (construct buf (mkDeserializer evs term) ts) begin_idx end_idx =
      (Throws (ClpJsException ErrorCode_Corrupt), d', tr) /\
    elems (m_log_events d') = evs /\
    get_estimated_num_events d' = N.of_nat (length evs) /\
    (forall begin_idx' end_idx',
        begin_idx' = 0 \/ end_idx' = 0 ->
        build_idx d' begin_idx' end_idx' =
          (Returns (mkBuildResults (N.of_nat (length evs)) 0), d', [])) /\
    exists r_ok d_ok tr_ok,
      build_idx (construct buf (mkDeserializer evs no_message_available) ts)
                begin_idx end_idx = (Returns r_ok, d_ok, tr_ok) /\
      forall begin_idx' end_idx',
        decode d' begin_idx' end_idx' = decode d_ok begin_idx' end_idx'.
Proof.
  intros Hguard Hn1 Hn2.
  destruct (build_idx_construct buf evs term ts _ _ Hguard) as (v & Hel & Hcap & E).
  destruct (build_idx_construct buf evs no_message_available ts _ _ Hguard)
    as (v0 & Hel0 & _ & E0).
  assert (Hthrown : thrown_at term = Some (ClpJsException ErrorCode_Corrupt))
    by (destruct term; try reflexivity; congruence).
  rewrite Hthrown in E. cbn [thrown_at] in E0.
  do 2 eexists. split; [exact E|]. split; [exact Hel|].
  split; [unfold get_estimated_num_events, size; cbn [m_log_events]; rewrite Hel; reflexivity|].
  split.
  - intros b' e' Hguard'. rewrite build_idx_built.
    + rewrite (range_guard_passes _ _ Hguard').
      unfold build_results, size. cbn [m_log_events]. rewrite Hel. reflexivity.
    + cbn [m_log_events]. unfold cDefaultNumLogEvents in Hcap. lia.
  - do 3 eexists. split; [exact E0|].
    intros b' e'. apply decode_same_events; cbn [m_log_events m_ts_pattern]; congruence.
Qed.

(** C3, as the code has it.  When the pass ends because the stream is used up
    or breaks off mid-record, [build_idx] frees the data buffer once, as the
    last thing it does: the pointer is non-null on the new object and during
    all the deserialization calls, null when [build_idx] returns, and no later
    call frees again or makes the pointer non-null. *)
Theorem data_buffer_released_once (buf : DataBuffer) (evs : list LogEvent)
  (term : errc) (ts : TimestampPattern) (begin_idx end_idx : N) :
  begin_idx = 0 \/ end_idx = 0 ->
  term = no_message_available \/ term = result_out_of_range ->
  m_data_buffer (construct buf (mkDeserializer evs term) ts) = Some buf /\
  exists r d' tr_pass,
    build_idx (construct buf (mkDeserializer evs term) ts) begin_idx end_idx =
      (Returns r, d', tr_pass ++ [FreeDataBuffer]) /\
    num_frees tr_pass = 0%nat /\
    num_deserialize_calls tr_pass = S (length evs) /\
    m_data_buffer d' = None /\
    forall ops,
      m_data_buffer (fst (run_operations d' ops)) = None /\
      num_frees (snd (run_operations d' ops)) = 0%nat.
Proof.
  intros Hguard Hterm. split; [reflexivity|].
  destruct (build_idx_construct buf evs term ts _ _ Hguard) as (v & Hel & Hcap & E).
  assert (Hthrown : thrown_at term = None) by (destruct Hterm; subst; reflexivity).
  rewrite Hthrown in E.
  do 3 eexists. split; [exact E|].
  split; [apply num_frees_repeat_deserialize|].
  split.
  { unfold num_deserialize_calls. rewrite filter_app, length_app.
    replace (filter is_deserialize (logged_at term)) with (@nil effect)
      by (destruct term; reflexivity).
    rewrite Nat.add_0_r. clear. generalize (S (length evs)) as n.
    induction n; simpl; congruence. }
  split; [reflexivity|].
  intros ops.
  destruct (run_operations_built
              (mkDecoder None (mkDeserializer [] term) v ts) ops) as (Hd & Hf & _).
  - cbn [m_log_events]. unfold cDefaultNumLogEvents in Hcap. lia.
  - rewrite Hd. split; [reflexivity|exact Hf].
Qed.

(** C5, as the code has it.  A stream that breaks off mid-record makes
    [build_idx] return normally: the buffer holds the events decoded before
    the incomplete record, the result counts them, and the condition is
    written to the log as an error line.  When at least one event was
    retained and each of them renders, decoding the whole retained range then
    gives one element per event. *)
Theorem build_idx_truncated (buf : DataBuffer) (evs : list LogEvent)
  (ts : TimestampPattern) (begin_idx end_idx : N) :
  begin_idx = 0 \/ end_idx = 0 ->
  exists d' tr,
    build_idx (construct buf (mkDeserializer evs result_out_of_range) ts)
              begin_idx end_idx =
      (Returns (mkBuildResults (N.of_nat (length evs)) 0), d', tr) /\
    elems (m_log_events d') = evs /\
    In (Spdlog SPDLOG_ERROR "File contains an incomplete IR stream") tr /\
    (evs <> [] ->
     forallb renders evs = true ->
     exists results,
       decode d' 0 (N.of_nat (length evs)) = (Returns (Some results), []) /\
       one_per_event ts 0 evs results).
Proof.
  intros Hguard.
  destruct (build_idx_construct buf evs result_out_of_range ts _ _ Hguard)
    as (v & Hel & Hcap & E).
  cbn [thrown_at logged_at] in E.
  do 2 eexists. split; [exact E|]. split; [exact Hel|]. split.
  - apply in_or_app. left. apply in_or_app. right. left. reflexivity.
  - intros Hne Hgood.
    set (d' := mkDecoder None (mkDeserializer [] result_out_of_range) v ts).
    assert (Hsize : size (m_log_events d') = N.of_nat (length evs))
      by (unfold size; cbn [d' m_log_events]; rewrite Hel; reflexivity).
    destruct (decode_loop_renders ts 0 evs Hgood 0) as (rs & Hrs & Hloop).
    exists rs. split; [|apply batch_one_per_event; exact Hrs].
    rewrite decode_in_range.
    + rewrite <- Hsize, log_events_span_all. cbn [d' m_log_events m_ts_pattern].
      rewrite Hel. rewrite <- (app_nil_r evs) at 1. rewrite Hloop. reflexivity.
    + rewrite Hsize. destruct evs; [congruence|]. cbn [length]. lia.
Qed.

(** * The claims about [decode] *)

(** C2, as the code has it.  [decode] gives the null signal exactly when the
    range is empty or reversed ([end_idx <= begin_idx]) or ends behind the
    buffer; [begin_idx], being unsigned, is never negative.  On any other
    range whose events all render it returns one element per index of
    [[begin_idx, end_idx)], in increasing order. *)
Theorem decode_range_check (d : decoder) (begin_idx end_idx : N) :
  (fst (decode d begin_idx end_idx) = Returns None <->
   (end_idx <= begin_idx \/ size (m_log_events d) < end_idx)) /\
  (begin_idx < end_idx <= size (m_log_events d) ->
   forallb renders (log_events_span d begin_idx end_idx) = true ->
   exists results,
     decode d begin_idx end_idx = (Returns (Some results), []) /\
     N.of_nat (length results) = end_idx - begin_idx /\
     one_per_event (m_ts_pattern d) begin_idx
       (log_events_span d begin_idx end_idx) results).
Proof.
  split; [split|].
  - intros H.
    destruct (N.le_gt_cases end_idx begin_idx) as [|Hlt]; [auto|].
    destruct (N.lt_ge_cases (size (m_log_events d)) end_idx) as [|Hle]; [auto|].
    rewrite decode_in_range in H by auto.
    destruct (decode_loop _ _ _ _ _) as [[r|x] tr]; discriminate.
  - intros H. rewrite decode_out_of_range by tauto. reflexivity.
  - intros Hrange Hgood.
    destruct (decode_loop_renders (m_ts_pattern d) begin_idx _ Hgood 0)
      as (rs & Hrs & Hloop).
    exists rs. rewrite decode_in_range by exact Hrange.
    rewrite <- (app_nil_r (log_events_span d begin_idx end_idx)) at 1.
    rewrite Hloop. split; [reflexivity|].
    split; [|apply batch_one_per_event; exact Hrs].
    rewrite (batch_length _ _ _ _ _ Hrs), log_events_span_length; lia.
Qed.

(** C6. In every element [decode] returns, [eventNumber] is [begin_idx] plus
    the element's offset in the batch plus one, and that is the 1-based
    position, in the whole buffer, of the event the element was made from. *)
Theorem decode_event_number (d : decoder) (begin_idx end_idx : N)
  (results : list DecodedResult) (tr : list effect) (j : nat) (r : DecodedResult) :
  end_idx < size_t_modulus ->
  decode d begin_idx end_idx = (Returns (Some results), tr) ->
  nth_error results j = Some r ->
  event_number_of r = begin_idx + N.of_nat j + 1 /\
  exists log_event message,
    nth_error (elems (m_log_events d)) (N.to_nat (event_number_of r) - 1) =
      Some log_event /\
    decode_message log_event = inl message /\
    message_of r =
      UTF8ToString
        (c_str (insert_formatted_timestamp (m_ts_pattern d) (get_timestamp log_event)
                  message)) /\
    timestamp_of r = get_timestamp log_event.
Proof.
  intros Hmax H Hj.
  destruct (N.le_gt_cases end_idx begin_idx) as [Hle|Hlt];
    [rewrite decode_out_of_range in H by auto; discriminate|].
  destruct (N.lt_ge_cases (size (m_log_events d)) end_idx) as [Hgt|Hle];
    [rewrite decode_out_of_range in H by auto; discriminate|].
  rewrite decode_in_range in H by auto.
  destruct (decode_loop _ _ _ _ _) as [[rs|x] tr0] eqn:E; [|discriminate].
  inversion H; subst; clear H.
  destruct (decode_loop_elements _ _ _ _ _ _ _ E) as (new & Hnew & Hel).
  simpl in Hnew. subst new.
  destruct (Hel j r Hj) as (ev & m & Hspan & Hm & Hmsg & Hts & _ & Hnum).
  apply log_events_span_nth in Hspan as [Hbuf Hoff].
  assert (Hn : event_number_of r = begin_idx + N.of_nat j + 1).
  { rewrite Hnum. unfold size_t_add. rewrite N.add_0_l.
    rewrite (N.mod_small (begin_idx + N.of_nat j)) by lia.
    apply N.mod_small. lia. }
  split; [exact Hn|].
  exists ev, m. rewrite Hn.
  replace (N.to_nat (begin_idx + N.of_nat j + 1) - 1)%nat
    with (N.to_nat begin_idx + j)%nat by lia.
  auto.
Qed.

(** X1. The [try]/[catch] of the loop.  When the events of the range before
    position [k] render and the message of the one at [k] does not decode,
    [decode] returns the elements of the positions before [k] and nothing
    else, and writes one error line, which carries the exception's error
    code.  An element holds the message as JavaScript reads it: up to its
    first NUL. *)
Theorem decode_stops_at_first_failure (d : decoder) (begin_idx end_idx : N)
  (good : list LogEvent) (bad : LogEvent) (rest : list LogEvent)
  (thrown : DecodingException) :
  begin_idx < end_idx <= size (m_log_events d) ->
  log_events_span d begin_idx end_idx = good ++ bad :: rest ->
  forallb renders good = true ->
  decode_message bad = inr thrown ->
  exists results,
    decode d begin_idx end_idx =
      (Returns (Some results), [decode_failure_line thrown]) /\
    one_per_event (m_ts_pattern d) begin_idx good results.
Proof.
  intros Hrange Hspan Hgood Hbad.
  destruct (decode_loop_renders (m_ts_pattern d) begin_idx _ Hgood 0)
    as (rs & Hrs & Hloop).
  exists rs. split; [|apply batch_one_per_event; exact Hrs].
  rewrite decode_in_range by exact Hrange.
  rewrite Hspan, Hloop. cbn [decode_loop]. rewrite Hbad. reflexivity.
Qed.

(** The text the level names are matched against: the message without its
    first character. *)
Definition text_after_first_char (message : string) : string :=
  substring 1 (String.length message - 1) message.

Lemma scan_log_level_first_match (names : list string) (message : string) :
  String.length message <> 0%nat ->
  forall i, 1 <= i ->
    exists log_level,
      scan_log_level names i message = Returns log_level /\
      ((log_level = cLogLevelNone /\
        forall k name,
          nth_error names k = Some name ->
          starts_with (text_after_first_char message) name = false) \/
       (exists k name,
           log_level = i + N.of_nat k /\
           nth_error names k = Some name /\
           starts_with (text_after_first_char message) name = true /\
           forall k' name',
             (k' < k)%nat -> nth_error names k' = Some name' ->
             starts_with (text_after_first_char message) name' = false)).
Proof.
  intros Hlen. induction names as [|name rest IH]; intros i Hi; cbn [scan_log_level].
  - exists cLogLevelNone. split; [reflexivity|]. left. split; [reflexivity|].
    intros [|k] name' H; discriminate.
  - rewrite (substr_1_nonempty _ Hlen). fold (text_after_first_char message).
    destruct (starts_with (text_after_first_char message) name) eqn:Hp.
    + exists i. split; [reflexivity|]. right. exists 0%nat, name.
      split; [lia|]. split; [reflexivity|]. split; [exact Hp|].
      intros k' name' Hk; lia.
    + destruct (IH (i + 1)) as (l & Hl & Hcase); [lia|].
      exists l. split; [exact Hl|].
      destruct Hcase as [[-> Hnone]|(k & name' & -> & Hk & Hpk & Hbefore)].
      * left. split; [reflexivity|].
        intros [|k] name' H; cbn [nth_error] in H; [congruence|eauto].
      * right. exists (S k), name'. split; [lia|]. split; [exact Hk|].
        split; [exact Hpk|].
        intros [|k'] name'' Hlt H; cbn [nth_error] in H; [congruence|].
        apply (Hbefore k' name''); [lia|exact H].
Qed.

(** X2. The level of a message that has a first character: the index of the
    first table entry, from index 1 on, that the text behind the first
    character starts with, and [cLogLevelNone] when there is none.  The entry
    at index 0 is not looked at. *)
Theorem find_log_level_first_match (message : string) :
  String.length message <> 0%nat ->
  exists log_level,
    find_log_level message = Returns log_level /\
    ((log_level = cLogLevelNone /\
      forall i name,
        (1 <= i)%nat -> nth_error cLogLevelNames i = Some name ->
        starts_with (text_after_first_char message) name = false) \/
     (exists name,
         1 <= log_level /\
         nth_error cLogLevelNames (N.to_nat log_level) = Some name /\
         starts_with (text_after_first_char message) name = true /\
         forall i name',
           (1 <= i < N.to_nat log_level)%nat ->
           nth_error cLogLevelNames i = Some name' ->
           starts_with (text_after_first_char message) name' = false)).
Proof.
  intros Hlen. unfold find_log_level.
  destruct (scan_log_level_first_match (skipn 1 cLogLevelNames) message Hlen 1)
    as (l & Hl & Hcase); [lia|].
  exists l. split; [exact Hl|].
  assert (Hnth : forall k, nth_error (skipn 1 cLogLevelNames) k =
                           nth_error cLogLevelNames (S k))
    by (intros k; rewrite nth_error_skipn; reflexivity).
  destruct Hcase as [[-> Hnone]|(k & name & -> & Hk & Hp & Hbefore)].
  - left. split; [reflexivity|].
    intros [|i] name Hi H; [lia|]. apply (Hnone i). rewrite Hnth. exact H.
  - right. exists name. split; [lia|].
    replace (N.to_nat (1 + N.of_nat k)) with (S k) by lia.
    rewrite <- Hnth. split; [exact Hk|]. split; [exact Hp|].
    intros [|i] name' Hi H; [lia|].
    apply (Hbefore i name'); [lia|]. rewrite Hnth. exact H.
Qed.

(** A message without a first character makes the loop throw as soon as the
    table has a second entry. *)
Lemma find_log_level_empty_message (none name : string) (names : list string) :
  cLogLevelNames = none :: name :: names ->
  find_log_level EmptyString = Throws std_out_of_range.
Proof.
  unfold find_log_level. intros ->. reflexivity.
Qed.

(** * Further properties of [build_idx] and [decode] *)

(** X3. On the object the constructor leaves, no event is buffered and
    [decode] answers null on every range, without any effect. *)
Theorem decode_before_build (buf : DataBuffer) (ds : LogEventDeserializer)
  (ts : TimestampPattern) (begin_idx end_idx : N) :
  get_estimated_num_events (construct buf ds ts) = 0 /\
  decode (construct buf ds ts) begin_idx end_idx = (Returns None, []).
Proof.
  split; [reflexivity|].
  apply decode_out_of_range. cbn [construct m_log_events]. unfold size. simpl. lia.
Qed.

(** X4. The range arguments of [build_idx] only decide whether the call is
    refused: with one of them 0 the call does what [build_idx(0, 0)] does,
    whatever the other is; with both non-zero it throws [Unsupported] and
    leaves the object as it was, without effect. *)
Theorem build_idx_range_arguments (d : decoder) (begin_idx end_idx : N) :
  (begin_idx = 0 \/ end_idx = 0 ->
   build_idx d begin_idx end_idx = build_idx d 0 0) /\
  (begin_idx <> 0 -> end_idx <> 0 ->
   build_idx d begin_idx end_idx =
     (Throws (ClpJsException ErrorCode_Unsupported), d, [])).
Proof.
  split.
  - intros H. unfold build_idx. rewrite (range_guard_passes _ _ H).
    rewrite (range_guard_passes 0 0) by (left; reflexivity). reflexivity.
  - intros Hb He. unfold build_idx, cFullRangeEndIdx.
    destruct (N.eqb_spec 0 begin_idx); [congruence|].
    destruct (N.eqb_spec 0 end_idx); [congruence|]. reflexivity.
Qed.

(** X5. On a stream that ends with its end-of-stream record the pass is a
    single one: one deserialization call per event and one for the end, no
    diagnostic, then the free.  The buffer holds the events in stream order
    and the result counts them. *)
Theorem build_idx_complete (buf : DataBuffer) (evs : list LogEvent)
  (ts : TimestampPattern) (begin_idx end_idx : N) :
  begin_idx = 0 \/ end_idx = 0 ->
  exists d',
    build_idx (construct buf (mkDeserializer evs no_message_available) ts)
              begin_idx end_idx =
      (Returns (mkBuildResults (N.of_nat (length evs)) 0), d',
       repeat Deserialize (S (length evs)) ++ [FreeDataBuffer]) /\
    elems (m_log_events d') = evs /\
    get_estimated_num_events d' = N.of_nat (length evs) /\
    pending (m_deserializer d') = [].
Proof.
  intros Hguard.
  destruct (build_idx_construct buf evs no_message_available ts _ _ Hguard)
    as (v & Hel & _ & E).
  cbn [thrown_at logged_at] in E. rewrite app_nil_r in E.
  eexists. split; [exact E|]. split; [exact Hel|].
  split; [|reflexivity].
  unfold get_estimated_num_events, size. cbn [m_log_events]. rewrite Hel. reflexivity.
Qed.

(** The loop either walks the whole span in silence, or stops at the first
    event whose message does not decode and writes one line, with the error
    code of the exception. *)
Lemma decode_loop_length ts b (span : list LogEvent) :
  forall off acc results tr,
    decode_loop ts b span off acc = (Returns results, tr) ->
    exists new,
      results = acc ++ new /\
      ((tr = [] /\ length new = length span) \/
       ((length new < length span)%nat /\
        exists log_event thrown,
          nth_error span (length new) = Some log_event /\
          decode_message log_event = inr thrown /\
          tr = [decode_failure_line thrown])).
Proof.
  induction span as [|ev span IH]; intros off acc results tr H; cbn [decode_loop] in H.
  - inversion H; subst. exists []. rewrite app_nil_r. auto.
  - destruct (decode_message ev) as [m|thrown] eqn:Hm.
    + destruct (find_log_level m) as [l|x]; [|discriminate].
      destruct (IH _ _ _ _ H) as (new & -> & Hcase).
      eexists (_ :: new). rewrite <- app_assoc. split; [reflexivity|].
      destruct Hcase as [[-> Hlen]|(Hlt & ev' & thrown & Hnth & Hbad & ->)].
      * left. cbn [length]. auto.
      * right. cbn [length]. split; [lia|].
        exists ev', thrown. auto.
    + inversion H; subst. exists []. rewrite app_nil_r. split; [reflexivity|].
      right. cbn [length]. split; [lia|].
      exists ev, thrown. auto.
Qed.

(** X6. A batch [decode] returns never holds more than [end_idx - begin_idx]
    elements.  It holds exactly that many when nothing was logged; it holds
    fewer exactly when one error line was logged, and then the event behind
    the last element returned is one whose message does not decode, and the
    line carries the error code of its exception. *)
Theorem decode_batch_length (d : decoder) (begin_idx end_idx : N)
  (results : list DecodedResult) (tr : list effect) :
  decode d begin_idx end_idx = (Returns (Some results), tr) ->
  (tr = [] /\ N.of_nat (length results) = end_idx - begin_idx) \/
  (N.of_nat (length results) < end_idx - begin_idx /\
   exists log_event thrown,
     nth_error (elems (m_log_events d)) (N.to_nat begin_idx + length results) =
       Some log_event /\
     decode_message log_event = inr thrown /\
     tr = [decode_failure_line thrown]).
Proof.
  intros H.
  destruct (N.le_gt_cases end_idx begin_idx) as [Hle|Hlt];
    [rewrite decode_out_of_range in H by auto; discriminate|].
  destruct (N.lt_ge_cases (size (m_log_events d)) end_idx) as [Hgt|Hle];
    [rewrite decode_out_of_range in H by auto; discriminate|].
  rewrite decode_in_range in H by auto.
  destruct (decode_loop _ _ _ _ _) as [[rs|x] tr0] eqn:E; [|discriminate].
  inversion H; subst; clear H.
  destruct (decode_loop_length _ _ _ _ _ _ _ E) as (new & Hnew & Hcase).
  simpl in Hnew. subst new.
  pose proof (log_events_span_length d begin_idx end_idx) as Hspan.
  destruct Hcase as [[-> Hlen]|(Hlt' & ev & thrown & Hnth & Hbad & ->)].
  - left. split; [reflexivity|]. rewrite Hlen, Hspan; lia.
  - right. split; [rewrite Hspan in Hlt'; lia|].
    exists ev, thrown. apply log_events_span_nth in Hnth as [Hnth _]. auto.
Qed.

(** The array so far is only appended to. *)
Lemma decode_loop_acc ts b (span : list LogEvent) :
  forall off acc,
    decode_loop ts b span off acc =
    match decode_loop ts b span off [] with
    | (Returns results, tr) => (Returns (acc ++ results), tr)
    | (Throws e, tr) => (Throws e, tr)
    end.
Proof.
  induction span as [|ev span IH]; intros off acc; cbn [decode_loop].
  - rewrite app_nil_r. reflexivity.
  - destruct (decode_message ev) as [m|thrown]; [|rewrite app_nil_r; reflexivity].
    destruct (find_log_level m) as [l|x]; [|reflexivity].
    rewrite IH. rewrite (IH _ ([] ++ _)).
    destruct (decode_loop ts b span (off + 1) []) as [[rs|x] tr]; [|reflexivity].
    rewrite <- app_assoc. reflexivity.
Qed.

(** The event numbers depend on [begin_idx + offset] only. *)
Lemma decode_loop_shift ts (span : list LogEvent) :
  forall b off b' off' acc,
    b + off = b' + off' ->
    decode_loop ts b span off acc = decode_loop ts b' span off' acc.
Proof.
  induction span as [|ev span IH]; intros b off b' off' acc H; cbn [decode_loop].
  - reflexivity.
  - destruct (decode_message ev) as [m|thrown]; [|reflexivity].
    destruct (find_log_level m) as [l|x]; [|reflexivity].
    unfold size_t_add at 2 4. rewrite H. apply IH. lia.
Qed.

(** A span walked in silence can be followed by more events. *)
Lemma decode_loop_app ts b (span : list LogEvent) :
  forall off acc results,
    decode_loop ts b span off acc = (Returns results, []) ->
    forall rest,
      decode_loop ts b (span ++ rest) off acc =
      decode_loop ts b rest (off + N.of_nat (length span)) results.
Proof.
  induction span as [|ev span IH]; intros off acc results H rest;
    cbn [decode_loop app] in *.
  - inversion H; subst. cbn [length]. rewrite N.add_0_r. reflexivity.
  - destruct (decode_message ev) as [m|thrown]; [|discriminate].
    destruct (find_log_level m) as [l|x]; [|discriminate].
    rewrite (IH _ _ _ H). cbn [length].
    replace (off + N.of_nat (S (length span))) with (off + 1 + N.of_nat (length span))
      by lia.
    reflexivity.
Qed.

Lemma firstn_plus (A : Type) (n m : nat) (l : list A) :
  firstn (n + m) l = firstn n l ++ firstn m (skipn n l).
Proof.
  revert l; induction n as [|n IH]; intros l; [reflexivity|].
  destruct l as [|x l]; simpl; [rewrite firstn_nil; reflexivity|].
  rewrite IH. reflexivity.
Qed.

Lemma log_events_span_split (d : decoder) (b m e : N) :
  b <= m <= e ->
  log_events_span d b e = log_events_span d b m ++ log_events_span d m e.
Proof.
  intros H. unfold log_events_span.
  replace (N.to_nat (e - b)) with (N.to_nat (m - b) + N.to_nat (e - m))%nat by lia.
  rewrite firstn_plus, skipn_skipn.
  replace (N.to_nat (m - b) + N.to_nat b)%nat with (N.to_nat m) by lia.
  reflexivity.
Qed.

(** X7. Decoding page by page gives what decoding at once gives: when
    [[begin_idx, mid_idx)] decodes in full, the batch of
    [[begin_idx, end_idx)] is that batch followed by the batch of
    [[mid_idx, end_idx)], event numbers included, with the same log line if
    the second range stops early. *)
Theorem decode_split (d : decoder) (begin_idx mid_idx end_idx : N)
  (first second : list DecodedResult) (tr : list effect) :
  begin_idx < mid_idx ->
  decode d begin_idx mid_idx = (Returns (Some first), []) ->
  decode d mid_idx end_idx = (Returns (Some second), tr) ->
  decode d begin_idx end_idx = (Returns (Some (first ++ second)), tr).
Proof.
  intros Hbm H1 H2.
  assert (Hme : mid_idx < end_idx <= size (m_log_events d)).
  { destruct (N.le_gt_cases end_idx mid_idx);
      [rewrite decode_out_of_range in H2 by auto; discriminate|].
    destruct (N.lt_ge_cases (size (m_log_events d)) end_idx);
      [rewrite decode_out_of_range in H2 by auto; discriminate|]. auto. }
  rewrite decode_in_range in H1 by lia.
  rewrite decode_in_range in H2 by lia.
  rewrite decode_in_range by lia.
  destruct (decode_loop (m_ts_pattern d) begin_idx
              (log_events_span d begin_idx mid_idx) 0 []) as [[r1|x] tr1] eqn:E1;
    [|discriminate].
  inversion H1; subst; clear H1.
  destruct (decode_loop (m_ts_pattern d) mid_idx
              (log_events_span d mid_idx end_idx) 0 []) as [[r2|x] tr2] eqn:E2;
    [|discriminate].
  inversion H2; subst; clear H2.
  rewrite (log_events_span_split d begin_idx mid_idx end_idx) by lia.
  rewrite (decode_loop_app _ _ _ _ _ _ E1).
  rewrite (decode_loop_shift _ _ begin_idx _ mid_idx 0)
    by (rewrite log_events_span_length; lia).
  rewrite decode_loop_acc, E2. reflexivity.
Qed.

Lemma scan_log_level_in_table (names : list string) (message : string) :
  forall i log_level,
    scan_log_level names i message = Returns log_level ->
    log_level = cLogLevelNone \/
    exists k name,
      log_level = i + N.of_nat k /\ nth_error names k = Some name /\
      exists tail, substr message 1 = Returns tail /\ starts_with tail name = true.
Proof.
  induction names as [|name rest IH]; intros i l H; cbn [scan_log_level] in H.
  - inversion H. auto.
  - destruct (substr message 1) as [tail|x] eqn:Hs; [|discriminate].
    destruct (starts_with tail name) eqn:Hp.
    + inversion H; subst. right. exists 0%nat, name.
      split; [lia|]. split; [reflexivity|]. eauto.
    + destruct (IH _ _ H) as [->|(k & name' & -> & Hk & Htail)]; [auto|].
      right. exists (S k), name'. split; [lia|]. split; [exact Hk|exact Htail].
Qed.

(** X8. The level of every element [decode] returns indexes into
    [cLogLevelNames]: it is 0, or the index, 1 or more, of an entry of the
    table. *)
Theorem decode_log_level_in_table (d : decoder) (begin_idx end_idx : N)
  (results : list DecodedResult) (tr : list effect) (r : DecodedResult) :
  decode d begin_idx end_idx = (Returns (Some results), tr) ->
  In r results ->
  log_level_of r = cLogLevelNone \/
  (1 <= log_level_of r /\
   exists name, nth_error cLogLevelNames (N.to_nat (log_level_of r)) = Some name).
Proof.
  intros H Hin.
  destruct (N.le_gt_cases end_idx begin_idx) as [Hle|Hlt];
    [rewrite decode_out_of_range in H by auto; discriminate|].
  destruct (N.lt_ge_cases (size (m_log_events d)) end_idx) as [Hgt|Hle];
    [rewrite decode_out_of_range in H by auto; discriminate|].
  rewrite decode_in_range in H by auto.
  destruct (decode_loop _ _ _ _ _) as [[rs|x] tr0] eqn:E; [|discriminate].
  inversion H; subst; clear H.
  destruct (decode_loop_elements _ _ _ _ _ _ _ E) as (new & Hnew & Hel).
  simpl in Hnew. subst new.
  apply In_nth_error in Hin as [j Hj].
  destruct (Hel j r Hj) as (ev & m & _ & _ & _ & _ & Hlevel & _).
  unfold find_log_level in Hlevel.
  destruct (scan_log_level_in_table _ _ _ _ Hlevel)
    as [->|(k & name & Hl & Hk & _)]; [auto|].
  right. split; [lia|]. exists name.
  rewrite nth_error_skipn in Hk. rewrite Hl.
  replace (N.to_nat (1 + N.of_nat k)) with (1 + k)%nat by lia. exact Hk.
Qed.

End Decoder.

Arguments get_estimated_num_events {DataBuffer TimestampPattern} d.
Arguments build_idx {DataBuffer TimestampPattern} d begin_idx end_idx.
Arguments decode {DataBuffer TimestampPattern}.
Arguments log_events_span {DataBuffer TimestampPattern} d begin_idx end_idx.
Arguments run_operations {DataBuffer TimestampPattern}.

(** * A concrete library and concrete streams, to run the decoder on *)

(** The placeholder a logtype holds where an encoded integer goes. *)
Definition sample_placeholder : ascii := ascii_of_nat 17.

(** A message decoder in the manner of the library's: static text goes to the
    constant handler, each placeholder takes the next encoded variable, and a
    placeholder that finds none left ends the walk with an exception. *)
Fixpoint sample_walk (logtype rest : string) (cur_pos begin_pos : N)
  (encoded_vars : list Z) : list handler_call * option DecodingException :=
  match rest with
  | EmptyString =>
      (if begin_pos <? cur_pos
       then [constant_call logtype begin_pos (cur_pos - begin_pos)] else [],
       None)
  | String c rest' =>
      if Ascii.eqb c sample_placeholder then
        match encoded_vars with
        | [] =>
            ([constant_call logtype begin_pos (cur_pos - begin_pos)],
             Some (mkDecodingException 1))
        | value :: encoded_vars' =>
            let '(calls, thrown) :=
              sample_walk logtype rest' (cur_pos + 1) (cur_pos + 1) encoded_vars' in
            (constant_call logtype begin_pos (cur_pos - begin_pos)
               :: encoded_int_call value :: calls, thrown)
        end
      else sample_walk logtype rest' (cur_pos + 1) begin_pos encoded_vars
  end.

Definition sample_generic_decode_message (logtype : string) (encoded_vars : list Z)
  (dict_vars : list string) : list handler_call * option DecodingException :=
  sample_walk logtype logtype 0 0 encoded_vars.

Definition sample_decode_var (value : Z) : string :=
  NilZero.string_of_int (Z.to_int value).

Definition sample_insert_formatted_timestamp (ts_pattern : string) (timestamp : Z)
  (message : string) : string :=
  (ts_pattern ++ sample_decode_var timestamp ++ message)%string.

(** On text without bytes above 127 the JavaScript string has the characters
    of the C string. *)
Definition sample_UTF8ToString (c_string : string) : string := c_string.

(** A level-name table of the header's shape: the entry at index 0 stands for
    no level. *)
Definition sample_cLogLevelNames : list string :=
  ["NONE"; "TRACE"; "DEBUG"; "INFO"; "WARN"; "ERROR"; "FATAL"]%string.

Definition sample_decode_message : LogEvent -> string + DecodingException :=
  decode_message sample_generic_decode_message sample_decode_var sample_decode_var.

Definition sample_find_log_level : string -> outcome N :=
  find_log_level sample_cLogLevelNames.

Definition sample_decode : t string string -> N -> N ->
  outcome (option (list DecodedResult)) * list effect :=
  decode sample_generic_decode_message sample_decode_var sample_decode_var
         sample_insert_formatted_timestamp sample_cLogLevelNames
         sample_UTF8ToString.

(** Five events: two that carry a level, one that does not, one whose logtype
    has a placeholder and no variable for it, and one with an empty logtype. *)
Definition sample_info : LogEvent :=
  mkLogEvent (" INFO connected: " ++ String sample_placeholder EmptyString)%string
             [42%Z] [] 1000.

Definition sample_warn : LogEvent :=
  mkLogEvent " WARN low disk"%string [] [] 2000.

Definition sample_plain : LogEvent :=
  mkLogEvent "hello"%string [] [] 3000.

Definition sample_malformed : LogEvent :=
  mkLogEvent (" ERROR code " ++ String sample_placeholder EmptyString)%string
             [] [] 4000.

Definition sample_empty : LogEvent :=
  mkLogEvent EmptyString [] [] 5000.

(** The object [create] returns for a stream that delivers [events] and then
    [error]. *)
Definition sample_new (events : list LogEvent) (error : errc) : t string string :=
  construct "compressed"%string (mkDeserializer events error) "@"%string.

(** The object a call leaves behind. *)
Definition after {A : Type} (call : A * t string string * list effect)
  : t string string := snd (fst call).

Definition result_of {A : Type} (call : A * t string string * list effect) : A :=
  fst (fst call).

(** * The claims on the concrete streams *)

(** Two events, then a record that is neither complete nor cut short. *)
Definition sample_corrupt : t string string :=
  sample_new [sample_info; sample_warn] protocol_error.

(** Three complete events, then a record the stream breaks off in. *)
Definition sample_truncated : t string string :=
  sample_new [sample_info; sample_warn; sample_plain] result_out_of_range.

(** A stream that breaks off in its first record. *)
Definition sample_truncated_at_once : t string string :=
  sample_new [] result_out_of_range.

(** Two events, then the end of the stream; and the object after the pass. *)
Definition sample_complete : t string string :=
  sample_new [sample_info; sample_warn] no_message_available.

Definition sample_built : t string string := after (build_idx sample_complete 0 0).

(** C1 fails on the code: after the throw the two events appended before the
    fault are counted by [get_estimated_num_events], reported by a second
    [build_idx] and decoded by [decode]. *)
Lemma build_idx_fatal_exposes_events :
  result_of (build_idx sample_corrupt 0 0) = Throws (ClpJsException ErrorCode_Corrupt) /\
  get_estimated_num_events (after (build_idx sample_corrupt 0 0)) = 2 /\
  result_of (build_idx (after (build_idx sample_corrupt 0 0)) 0 0) =
    Returns (mkBuildResults 2 0) /\
  sample_decode (after (build_idx sample_corrupt 0 0)) 0 2 =
    (Returns (Some [mkDecodedResult "@1000 INFO connected: 42" 1000 3 1;
                    mkDecodedResult "@2000 WARN low disk" 2000 4 2]), []).
Proof. vm_compute. repeat split. Qed.

Lemma build_idx_fatal_keeps_events_witness :
  exists d' tr,
    build_idx sample_corrupt 0 0 = (Throws (ClpJsException ErrorCode_Corrupt), d', tr) /\
    get_estimated_num_events d' = 2.
Proof.
  destruct (build_idx_fatal_keeps_events string string
              sample_generic_decode_message sample_decode_var sample_decode_var
              sample_insert_formatted_timestamp sample_cLogLevelNames
              sample_UTF8ToString
              "compressed"%string [sample_info; sample_warn] protocol_error
              "@"%string 0 0)
    as (d' & tr & E & _ & Hn & _).
  - left; reflexivity.
  - discriminate.
  - discriminate.
  - exists d', tr. split; [exact E|exact Hn].
Defined.

(** C2 fails on the code: the range [[1, 1)] satisfies
    [0 <= begin_idx <= end_idx <= N] on a buffer of two events, and [decode]
    answers null. *)
Lemma decode_empty_range_is_null :
  (0 <=? 1) = true /\ (1 <=? 1) = true /\
  (1 <=? size (m_log_events sample_built)) = true /\
  sample_decode sample_built 1 1 = (Returns None, []).
Proof. vm_compute. repeat split. Qed.

Lemma decode_range_check_witness :
  exists results,
    sample_decode sample_built 0 2 = (Returns (Some results), []) /\
    length results = 2%nat.
Proof.
  destruct (proj2 (decode_range_check string string
                     sample_generic_decode_message sample_decode_var sample_decode_var
                     sample_insert_formatted_timestamp sample_cLogLevelNames
              sample_UTF8ToString
                     sample_built 0 2))
    as (results & E & Hlen & _).
  - vm_compute. split; [reflexivity|discriminate].
  - vm_compute. reflexivity.
  - exists results. split; [exact E|]. lia.
Defined.

(** C3 fails on the code: the pass over [sample_corrupt] ends in the fatal
    state, and the data buffer is neither null nor freed. *)
Lemma data_buffer_kept_after_fatal :
  result_of (build_idx sample_corrupt 0 0) = Throws (ClpJsException ErrorCode_Corrupt) /\
  m_data_buffer (after (build_idx sample_corrupt 0 0)) = Some "compressed"%string /\
  num_frees (snd (build_idx sample_corrupt 0 0)) = 0%nat.
Proof. vm_compute. repeat split. Qed.

Lemma data_buffer_released_once_witness :
  exists r d' tr_pass,
    build_idx sample_truncated 0 0 = (Returns r, d', tr_pass ++ [FreeDataBuffer]) /\
    num_frees tr_pass = 0%nat /\
    m_data_buffer d' = None /\
    num_frees (snd (run_operations
                      sample_generic_decode_message sample_decode_var sample_decode_var
                      sample_insert_formatted_timestamp sample_cLogLevelNames
                      sample_UTF8ToString d'
                      [call_build_idx 0 0; call_decode 0 3; call_build_idx 0 0])) = 0%nat.
Proof.
  destruct (data_buffer_released_once string string
              sample_generic_decode_message sample_decode_var sample_decode_var
              sample_insert_formatted_timestamp sample_cLogLevelNames
              sample_UTF8ToString
              "compressed"%string [sample_info; sample_warn; sample_plain]
              result_out_of_range "@"%string 0 0)
    as (_ & r & d' & tr_pass & E & Hf & _ & Hnull & Hlater).
  - left; reflexivity.
  - right; reflexivity.
  - exists r, d', tr_pass. split; [exact E|]. split; [exact Hf|].
    split; [exact Hnull|]. apply Hlater.
Defined.

Lemma build_idx_idempotent_witness :
  build_idx sample_built 0 0 = (Returns (mkBuildResults 2 0), sample_built, []).
Proof.
  destruct (build_idx_idempotent string string sample_complete 0 0
              (mkBuildResults 2 0) sample_built
              (snd (build_idx sample_complete 0 0)))
    with (begin_idx' := 0) (end_idx' := 0) as (res & E & Hres).
  - vm_compute. reflexivity.
  - rewrite E, Hres; [reflexivity|left; reflexivity].
Defined.

(** C5 fails on the code: when the stream breaks off in its first record the
    retained range is [[0, 0)], and [decode] answers null on it. *)
Lemma decode_after_truncation_at_once :
  result_of (build_idx sample_truncated_at_once 0 0) = Returns (mkBuildResults 0 0) /\
  sample_decode (after (build_idx sample_truncated_at_once 0 0)) 0 0 = (Returns None, []).
Proof. vm_compute. repeat split. Qed.

Lemma build_idx_truncated_witness :
  exists d' tr results,
    build_idx sample_truncated 0 0 = (Returns (mkBuildResults 3 0), d', tr) /\
    In (Spdlog SPDLOG_ERROR "File contains an incomplete IR stream") tr /\
    sample_decode d' 0 3 = (Returns (Some results), []) /\
    length results = 3%nat.
Proof.
  destruct (build_idx_truncated string string
              sample_generic_decode_message sample_decode_var sample_decode_var
              sample_insert_formatted_timestamp sample_cLogLevelNames
              sample_UTF8ToString
              "compressed"%string [sample_info; sample_warn; sample_plain]
              "@"%string 0 0)
    as (d' & tr & E & _ & Hlog & Hdecode).
  - left; reflexivity.
  - destruct Hdecode as (results & Hd & Hlen & _).
    + discriminate.
    + vm_compute. reflexivity.
    + exists d', tr, results. split; [exact E|]. split; [exact Hlog|].
      split; [exact Hd|exact Hlen].
Defined.

Lemma decode_event_number_witness :
  event_number_of (mkDecodedResult "@2000 WARN low disk" 2000 4 2) = 0 + N.of_nat 1 + 1.
Proof.
  apply (decode_event_number string string
           sample_generic_decode_message sample_decode_var sample_decode_var
           sample_insert_formatted_timestamp sample_cLogLevelNames
              sample_UTF8ToString
           sample_built 0 2
           [mkDecodedResult "@1000 INFO connected: 42" 1000 3 1;
            mkDecodedResult "@2000 WARN low disk" 2000 4 2] [] 1).
  - vm_compute. reflexivity.
  - vm_compute. reflexivity.
  - reflexivity.
Defined.

Lemma build_idx_num_invalid_events_witness :
  numInvalidEvents (mkBuildResults 3 0) = 0 /\
  numValidEvents (mkBuildResults 3 0) =
    get_estimated_num_events (after (build_idx sample_truncated 0 0)).
Proof.
  apply (build_idx_num_invalid_events string string sample_truncated 0 0
           (mkBuildResults 3 0) (after (build_idx sample_truncated 0 0))
           (snd (build_idx sample_truncated 0 0))).
  vm_compute. reflexivity.
Defined.

(** The range C7 and C8 fail on: an event with an empty logtype, then one
    whose message does not decode. *)
Definition sample_empty_then_malformed : t string string :=
  after (build_idx (sample_new [sample_empty; sample_malformed] no_message_available) 0 0).

(** C7 on the code: the message at position 1 does not decode, the one at
    position 0 is empty, and [decode] throws instead of returning the element
    of position 0. *)
Lemma decode_throws_before_failure :
  sample_decode_message sample_empty = inl EmptyString /\
  sample_decode_message sample_malformed = inr (mkDecodingException 1) /\
  sample_decode sample_empty_then_malformed 0 2 = (Throws std_out_of_range, []).
Proof. vm_compute. repeat split. Qed.

(** C8 on the code: for a message of length 0 the level is not "none";
    [substr(1)] throws, and so does [decode]. *)
Lemma find_log_level_throws_on_empty_message :
  sample_find_log_level EmptyString = Throws std_out_of_range /\
  sample_decode sample_empty_then_malformed 0 1 = (Throws std_out_of_range, []).
Proof. vm_compute. repeat split. Qed.

Lemma decode_stops_at_first_failure_witness :
  exists results,
    sample_decode
      (after (build_idx (sample_new [sample_info; sample_malformed; sample_warn]
                           no_message_available) 0 0)) 0 3 =
      (Returns (Some results),
       [Spdlog SPDLOG_ERROR "Failed to decode. Error Code: 1"]) /\
    length results = 1%nat.
Proof.
  destruct (decode_stops_at_first_failure string string
              sample_generic_decode_message sample_decode_var sample_decode_var
              sample_insert_formatted_timestamp sample_cLogLevelNames
              sample_UTF8ToString
              (after (build_idx (sample_new [sample_info; sample_malformed; sample_warn]
                                   no_message_available) 0 0)) 0 3
              [sample_info] sample_malformed [sample_warn] (mkDecodingException 1))
    as (results & E & Hlen & _).
  - vm_compute. split; [reflexivity|discriminate].
  - vm_compute. reflexivity.
  - vm_compute. reflexivity.
  - vm_compute. reflexivity.
  - exists results. split; [exact E|exact Hlen].
Defined.

Lemma find_log_level_first_match_witness :
  exists log_level,
    sample_find_log_level " WARN low disk" = Returns log_level /\
    nth_error sample_cLogLevelNames (N.to_nat log_level) = Some "WARN"%string.
Proof.
  destruct (find_log_level_first_match sample_cLogLevelNames " WARN low disk")
    as (l & E & Hcase).
  - discriminate.
  - exists l. split; [exact E|].
    assert (Hl : l = 4) by (vm_compute in E; congruence).
    subst l. reflexivity.
Defined.

(** * The further properties on the concrete streams *)

(** Three events the second of which does not decode, after the pass. *)
Definition sample_built_with_malformed : t string string :=
  after (build_idx (sample_new [sample_info; sample_malformed; sample_warn]
                      no_message_available) 0 0).

Lemma build_idx_range_arguments_witness :
  build_idx sample_complete 0 7 = build_idx sample_complete 0 0 /\
  build_idx sample_complete 5 0 = build_idx sample_complete 0 0 /\
  build_idx sample_complete 5 7 =
    (Throws (ClpJsException ErrorCode_Unsupported), sample_complete, []).
Proof.
  split; [|split].
  - apply (proj1 (build_idx_range_arguments string string sample_complete 0 7)).
    left; reflexivity.
  - apply (proj1 (build_idx_range_arguments string string sample_complete 5 0)).
    right; reflexivity.
  - apply (proj2 (build_idx_range_arguments string string sample_complete 5 7));
      discriminate.
Defined.

Lemma build_idx_complete_witness :
  exists d',
    build_idx sample_complete 0 0 =
      (Returns (mkBuildResults 2 0), d',
       [Deserialize; Deserialize; Deserialize; FreeDataBuffer]) /\
    elems (m_log_events d') = [sample_info; sample_warn].
Proof.
  destruct (build_idx_complete string string "compressed"%string
              [sample_info; sample_warn] "@"%string 0 0)
    as (d' & E & Hel & _).
  - left; reflexivity.
  - exists d'. split; [exact E|exact Hel].
Defined.

Lemma decode_batch_length_witness :
  N.of_nat 1 < 3 - 0 /\
  exists log_event thrown,
    nth_error (elems (m_log_events sample_built_with_malformed)) (N.to_nat 0 + 1) =
      Some log_event /\
    sample_decode_message log_event = inr thrown /\
    [Spdlog SPDLOG_ERROR "Failed to decode. Error Code: 1"] =
      [decode_failure_line thrown].
Proof.
  destruct (decode_batch_length string string
              sample_generic_decode_message sample_decode_var sample_decode_var
              sample_insert_formatted_timestamp sample_cLogLevelNames
              sample_UTF8ToString
              sample_built_with_malformed 0 3
              [mkDecodedResult "@1000 INFO connected: 42" 1000 3 1]
              [Spdlog SPDLOG_ERROR "Failed to decode. Error Code: 1"])
    as [[Hsilent _]|(Hlt & Hbad)].
  - vm_compute. reflexivity.
  - discriminate.
  - split; [exact Hlt|exact Hbad].
Defined.

Lemma decode_split_witness :
  sample_decode sample_built 0 2 =
    (Returns (Some ([mkDecodedResult "@1000 INFO connected: 42" 1000 3 1] ++
                    [mkDecodedResult "@2000 WARN low disk" 2000 4 2])), []).
Proof.
  apply (decode_split string string
           sample_generic_decode_message sample_decode_var sample_decode_var
           sample_insert_formatted_timestamp sample_cLogLevelNames
              sample_UTF8ToString
           sample_built 0 1 2).
  - reflexivity.
  - vm_compute. reflexivity.
  - vm_compute. reflexivity.
Defined.

Lemma decode_log_level_in_table_witness :
  log_level_of (mkDecodedResult "@2000 WARN low disk" 2000 4 2) = cLogLevelNone \/
  (1 <= log_level_of (mkDecodedResult "@2000 WARN low disk" 2000 4 2) /\
   exists name,
     nth_error sample_cLogLevelNames
       (N.to_nat (log_level_of (mkDecodedResult "@2000 WARN low disk" 2000 4 2))) =
       Some name).
Proof.
  apply (decode_log_level_in_table string string
           sample_generic_decode_message sample_decode_var sample_decode_var
           sample_insert_formatted_timestamp sample_cLogLevelNames
              sample_UTF8ToString
           sample_built 0 2
           [mkDecodedResult "@1000 INFO connected: 42" 1000 3 1;
            mkDecodedResult "@2000 WARN low disk" 2000 4 2] []).
  - vm_compute. reflexivity.
  - right; left; reflexivity.
Defined.

(** An event whose logtype begins with a NUL: the message of the element
    [decode] returns for it ends before the NUL, and its level is the one
    found in the whole message. *)
Definition sample_with_nul : LogEvent :=
  mkLogEvent (String Ascii.zero "INFO started")%string [] [] 12.

Lemma decode_cuts_message_at_nul :
  sample_decode_message sample_with_nul =
    inl (String Ascii.zero "INFO started")%string /\
  sample_decode
    (after (build_idx (sample_new [sample_with_nul] no_message_available) 0 0)) 0 1 =
    (Returns (Some [mkDecodedResult "@12" 12 3 1]), []).
Proof. vm_compute. split; reflexivity. Qed.

End ClpIrV1Decoder.

Module StreamReader.

(** *** Data *)

(** [clp::ffi::ir_stream::IRErrorCode]. *)
Inductive IRErrorCode : Type :=
| IRErrorCode_Success
| IRErrorCode_Decode_Error
| IRErrorCode_Eof
| IRErrorCode_Corrupted_IR
| IRErrorCode_Incomplete_IR.

Definition IRErrorCode_eqb (a b : IRErrorCode) : bool :=
  match a, b with
  | IRErrorCode_Success, IRErrorCode_Success
  | IRErrorCode_Decode_Error, IRErrorCode_Decode_Error
  | IRErrorCode_Eof, IRErrorCode_Eof
  | IRErrorCode_Corrupted_IR, IRErrorCode_Corrupted_IR
  | IRErrorCode_Incomplete_IR, IRErrorCode_Incomplete_IR => true
  | _, _ => false
  end.

(** A [nlohmann::json] value. *)
#[warnings="-register-all"]
Inductive json : Type :=
| json_null
| json_boolean (b : bool)
| json_number (n : Z)
| json_string (s : string)
| json_array (items : list json)
| json_object (members : list (string * json)).

(** [j.at(key)]: [None] when it throws a [json::exception] ([j] is not an
    object, or has no such key). *)
Definition json_at (j : json) (key : string) : option json :=
  match j with
  | json_object members =>
      match find (fun member => String.eqb (fst member) key) members with
      | Some member => Some (snd member)
      | None => None
      end
  | _ => None
  end.

(** The conversion to [std::string]: [None] when it throws a
    [json::exception] ([j] is not a string). *)
Definition json_get_string (j : json) : option string :=
  match j with
  | json_string s => Some s
  | _ => None
  end.

Section Create.

(** * The CLP core library, the JSON parser and the rest of the repository *)

(** The bytes JavaScript hands over, and a [ZstdDecompressor] with its
    position. *)
Variables DataArray Reader : Type.

(** [zstd_decompressor->open(data_buffer.data(), length)] on a new
    decompressor. *)
Variable open : DataArray -> Reader.

Variable seek_from_begin : Reader -> N -> Reader.

(** [reader.try_get_pos(pos)]: the value the call returns, as the assignment
    to a [size_t] stores it. *)
Variable try_get_pos : Reader -> N -> N.

(** [get_encoding_type(reader, is_four_bytes_encoding)]: the error code, what
    the flag holds afterwards, and the reader. *)
Variable get_encoding_type : Reader -> bool -> IRErrorCode * bool * Reader.

(** [deserialize_preamble(reader, metadata_type, metadata_bytes)]: the error
    code, the metadata bytes read as characters, and the reader. *)
Variable deserialize_preamble : Reader -> IRErrorCode * string * Reader.

(** [nlohmann::json::parse]: [None] when it throws a [json::exception]. *)
Variable json_parse : string -> option json.

(** [cProtocol::Metadata::VersionKey]. *)
Variable VersionKey : string.

(** [cUnstructuredIrVersions] of [constants.hpp]. *)
Variable cUnstructuredIrVersions : list string.

(** [UnstructuredIrStreamReader::create], of a file that is not at hand. *)
Variable StreamReader : Type.
Variable UnstructuredIrStreamReader_create : Reader -> DataArray -> outcome StreamReader.

(** * [rewind_reader_and_validate_encoding_type] *)

Definition rewind_reader_and_validate_encoding_type (reader : Reader)
  : outcome unit * Reader :=
  let reader := seek_from_begin reader 0 in
  let '(err, is_four_bytes_encoding, reader) := get_encoding_type reader true in
  if negb (IRErrorCode_eqb IRErrorCode_Success err) then
    (Throws (ClpFfiJsException ErrorCode_MetadataCorrupted), reader)
  else if Bool.eqb false is_four_bytes_encoding then
    (Throws (ClpFfiJsException ErrorCode_Unsupported), reader)
  else (Returns tt, reader).

(** * [get_version] *)

(** The [try] block: [None] when a [json::exception] is caught. *)
Definition parse_version (metadata_bytes : string) : option string :=
  match json_parse metadata_bytes with
  | None => None
  | Some metadata =>
      match json_at metadata VersionKey with
      | None => None
      | Some v => json_get_string v
      end
  end.

Definition get_version (reader : Reader) : outcome string * Reader :=
  let '(deserialize_preamble_result, metadata_bytes, reader) :=
    deserialize_preamble reader in
  if negb (IRErrorCode_eqb IRErrorCode_Success deserialize_preamble_result) then
    (Throws (ClpFfiJsException ErrorCode_Failure), reader)
  else
    match parse_version metadata_bytes with
    | None => (Throws (ClpFfiJsException ErrorCode_MetadataCorrupted), reader)
    | Some version => (Returns version, reader)
    end.

(** * [StreamReader::create] *)

Definition create (data_array : DataArray) : outcome StreamReader :=
  let data_buffer := data_array in
  let zstd_decompressor := open data_buffer in
  let reader_offset := 0 in
  match rewind_reader_and_validate_encoding_type zstd_decompressor with
  | (Throws e, _) => Throws e
  | (Returns _, zstd_decompressor) =>
      let reader_offset := try_get_pos zstd_decompressor reader_offset in
      match get_version zstd_decompressor with
      | (Throws e, _) => Throws e
      | (Returns version, zstd_decompressor) =>
          let zstd_decompressor := seek_from_begin zstd_decompressor reader_offset in
          if existsb (String.eqb version) cUnstructuredIrVersions then
            UnstructuredIrStreamReader_create zstd_decompressor data_buffer
          else Throws (ClpFfiJsException ErrorCode_Unsupported)
      end
  end.

(** * The error classes of [create] *)

Lemma IRErrorCode_eqb_Success (err : IRErrorCode) :
  IRErrorCode_eqb IRErrorCode_Success err = true <-> err = IRErrorCode_Success.
Proof. destruct err; simpl; split; congruence. Qed.

Lemma known_version (version : string) :
  existsb (String.eqb version) cUnstructuredIrVersions = true <->
  In version cUnstructuredIrVersions.
Proof.
  rewrite existsb_exists. split.
  - intros (v & Hin & Heq). apply String.eqb_eq in Heq. subst. exact Hin.
  - intros Hin. exists version. split; [exact Hin|apply String.eqb_refl].
Qed.

(** C9, as the code has it.  [create] throws [MetadataCorrupted] when the
    encoding-type tag cannot be decoded, and when the metadata does not parse
    as JSON, has no version field or has one that is not a string; it throws
    [Unsupported] when the encoding is not the four-byte one, and when the
    version is none of the unstructured-IR versions; it throws [Failure] when
    the preamble cannot be deserialized.  In every other case the result is
    that of [UnstructuredIrStreamReader::create] on the repositioned reader. *)
Theorem create_error_classes (data_array : DataArray)
  (err : IRErrorCode) (is_four_bytes_encoding : bool) (reader : Reader) :
  get_encoding_type (seek_from_begin (open data_array) 0) true =
    (err, is_four_bytes_encoding, reader) ->
  (err <> IRErrorCode_Success ->
   create data_array = Throws (ClpFfiJsException ErrorCode_MetadataCorrupted)) /\
  (err = IRErrorCode_Success -> is_four_bytes_encoding = false ->
   create data_array = Throws (ClpFfiJsException ErrorCode_Unsupported)) /\
  (err = IRErrorCode_Success -> is_four_bytes_encoding = true ->
   forall result metadata_bytes reader',
     deserialize_preamble reader = (result, metadata_bytes, reader') ->
     (result <> IRErrorCode_Success ->
      create data_array = Throws (ClpFfiJsException ErrorCode_Failure)) /\
     (result = IRErrorCode_Success ->
      (json_parse metadata_bytes = None ->
       create data_array = Throws (ClpFfiJsException ErrorCode_MetadataCorrupted)) /\
      (forall metadata,
          json_parse metadata_bytes = Some metadata ->
          (json_at metadata VersionKey = None ->
           create data_array = Throws (ClpFfiJsException ErrorCode_MetadataCorrupted)) /\
          (forall v,
              json_at metadata VersionKey = Some v ->
              (json_get_string v = None ->
               create data_array =
                 Throws (ClpFfiJsException ErrorCode_MetadataCorrupted)) /\
              (forall version,
                  json_get_string v = Some version ->
                  (~ In version cUnstructuredIrVersions ->
                   create data_array =
                     Throws (ClpFfiJsException ErrorCode_Unsupported)) /\
                  (In version cUnstructuredIrVersions ->
                   create data_array =
                     UnstructuredIrStreamReader_create
                       (seek_from_begin reader' (try_get_pos reader 0))
                       data_array)))))).
Proof.
  intros Htag. unfold create, rewind_reader_and_validate_encoding_type.
  rewrite Htag. split; [|split].
  - intros Herr.
    destruct (IRErrorCode_eqb IRErrorCode_Success err) eqn:E; [|reflexivity].
    apply IRErrorCode_eqb_Success in E. contradiction.
  - intros -> ->. reflexivity.
  - intros -> ->. cbn [IRErrorCode_eqb negb Bool.eqb].
    intros result metadata_bytes reader' Hpre. unfold get_version. rewrite Hpre.
    split.
    + intros Hres.
      destruct (IRErrorCode_eqb IRErrorCode_Success result) eqn:E; [|reflexivity].
      apply IRErrorCode_eqb_Success in E. contradiction.
    + intros ->. cbn [IRErrorCode_eqb negb]. unfold parse_version. split.
      * intros ->. reflexivity.
      * intros metadata ->. split; [intros ->; reflexivity|].
        intros v ->. split; [intros ->; reflexivity|].
        intros version ->. split.
        -- intros Hnot.
           destruct (existsb (String.eqb version) cUnstructuredIrVersions) eqn:E;
             [|reflexivity].
           apply known_version in E. contradiction.
        -- intros Hin. apply known_version in Hin. rewrite Hin. reflexivity.
Qed.

(** * Further properties of [get_version] and [create] *)

(** X9. [get_version] returns a version exactly when the preamble is
    deserialized, its metadata parses, and the parsed document is an object
    whose version field is a string; the version is that string, and the
    reader is left where the preamble ends. *)
Theorem get_version_returns_iff (reader reader' : Reader) (version : string) :
  get_version reader = (Returns version, reader') <->
  exists metadata_bytes metadata,
    deserialize_preamble reader = (IRErrorCode_Success, metadata_bytes, reader') /\
    json_parse metadata_bytes = Some metadata /\
    json_at metadata VersionKey = Some (json_string version).
Proof.
  unfold get_version, parse_version. split.
  - destruct (deserialize_preamble reader) as [[result bytes] r].
    destruct result; cbn [IRErrorCode_eqb negb]; try discriminate.
    destruct (json_parse bytes) as [metadata|] eqn:Hparse; [|discriminate].
    destruct (json_at metadata VersionKey) as [v|] eqn:Hat; [|discriminate].
    destruct v; cbn [json_get_string]; try discriminate.
    intros H; inversion H; subst. exists bytes, metadata. auto.
  - intros (bytes & metadata & -> & -> & ->). reflexivity.
Qed.

(** X10. A reader comes out of [create] only for a stream whose tag decodes
    to the four-byte encoding, whose preamble is deserialized and whose
    version is one of [cUnstructuredIrVersions]; it is the reader
    [UnstructuredIrStreamReader::create] returned. *)
Theorem create_returns_only_supported (data_array : DataArray)
  (stream_reader : StreamReader) :
  create data_array = Returns stream_reader ->
  exists reader reader' metadata_bytes version,
    get_encoding_type (seek_from_begin (open data_array) 0) true =
      (IRErrorCode_Success, true, reader) /\
    deserialize_preamble reader = (IRErrorCode_Success, metadata_bytes, reader') /\
    parse_version metadata_bytes = Some version /\
    In version cUnstructuredIrVersions /\
    UnstructuredIrStreamReader_create
      (seek_from_begin reader' (try_get_pos reader 0)) data_array =
      Returns stream_reader.
Proof.
  unfold create, rewind_reader_and_validate_encoding_type, get_version.
  destruct (get_encoding_type (seek_from_begin (open data_array) 0) true)
    as [[err four] reader] eqn:Htag.
  destruct err; cbn [IRErrorCode_eqb negb]; try discriminate.
  destruct four; cbn [Bool.eqb]; [|discriminate].
  destruct (deserialize_preamble reader) as [[result bytes] reader'] eqn:Hpre.
  destruct result; cbn [IRErrorCode_eqb negb]; try discriminate.
  destruct (parse_version bytes) as [version|] eqn:Hv; [|discriminate].
  destruct (existsb (String.eqb version) cUnstructuredIrVersions) eqn:Hknown;
    [|discriminate].
  intros H. exists reader, reader', bytes, version.
  apply known_version in Hknown.
  repeat split; assumption || reflexivity.
Qed.

(** X11. What [create] itself throws is a [ClpFfiJsException] of class
    [MetadataCorrupted], [Unsupported] or [Failure]; any other exception that
    leaves it was thrown by [UnstructuredIrStreamReader::create]. *)
Theorem create_throws_only (data_array : DataArray) (e : exception) :
  create data_array = Throws e ->
  e = ClpFfiJsException ErrorCode_MetadataCorrupted \/
  e = ClpFfiJsException ErrorCode_Unsupported \/
  e = ClpFfiJsException ErrorCode_Failure \/
  exists reader, UnstructuredIrStreamReader_create reader data_array = Throws e.
Proof.
  unfold create, rewind_reader_and_validate_encoding_type, get_version.
  destruct (get_encoding_type (seek_from_begin (open data_array) 0) true)
    as [[err four] reader].
  destruct (negb (IRErrorCode_eqb IRErrorCode_Success err));
    [intros H; inversion H; auto|].
  destruct (Bool.eqb false four); [intros H; inversion H; auto|].
  destruct (deserialize_preamble reader) as [[result bytes] reader'].
  destruct (negb (IRErrorCode_eqb IRErrorCode_Success result));
    [intros H; inversion H; auto|].
  destruct (parse_version bytes) as [version|]; [|intros H; inversion H; auto].
  destruct (existsb (String.eqb version) cUnstructuredIrVersions);
    [|intros H; inversion H; auto].
  intros H. right; right; right. eauto.
Qed.

End Create.

(** * A concrete library and concrete streams, to run [create] on *)

(** A stream, by what the library finds in it: the result of decoding the
    encoding-type tag, the encoding it names, the result of deserializing the
    preamble, and the metadata bytes. *)
Record sample_stream : Type := mkSampleStream {
  tag_result : IRErrorCode;
  tag_four_bytes : bool;
  preamble_result : IRErrorCode;
  metadata_bytes_of : string
}.

(** A reader: the stream and the position in it. *)
Definition sample_reader : Type := sample_stream * N.

Definition sample_open (data_array : sample_stream) : sample_reader := (data_array, 0).

Definition sample_seek_from_begin (reader : sample_reader) (pos : N) : sample_reader :=
  (fst reader, pos).

(** The call succeeds, and success is the error code 0. *)
Definition sample_try_get_pos (reader : sample_reader) (pos : N) : N := 0.

Definition sample_get_encoding_type (reader : sample_reader) (flag : bool)
  : IRErrorCode * bool * sample_reader :=
  (tag_result (fst reader),
   if IRErrorCode_eqb IRErrorCode_Success (tag_result (fst reader))
   then tag_four_bytes (fst reader) else flag,
   (fst reader, snd reader + 4)).

Definition sample_deserialize_preamble (reader : sample_reader)
  : IRErrorCode * string * sample_reader :=
  (preamble_result (fst reader), metadata_bytes_of (fst reader),
   (fst reader, snd reader + 3 + N.of_nat (String.length (metadata_bytes_of (fst reader))))).

(** A parser that knows four documents and rejects all other text. *)
Definition sample_json_parse (text : string) : option json :=
  if String.eqb text "version 0.0.2" then
    Some (json_object [("VERSION", json_string "0.0.2"); ("TZ_ID", json_string "UTC")])%string
  else if String.eqb text "version 9" then
    Some (json_object [("VERSION", json_string "9")])%string
  else if String.eqb text "numeric version" then
    Some (json_object [("VERSION", json_number 2)])%string
  else if String.eqb text "no version" then
    Some (json_object [("TZ_ID", json_string "UTC")])%string
  else None.

Definition sample_cUnstructuredIrVersions : list string :=
  ["v0.0.0"; "0.0.1"; "0.0.2"]%string.

(** The reader [UnstructuredIrStreamReader::create] is given, kept as it is. *)
Definition sample_unstructured_create (reader : sample_reader)
  (data_buffer : sample_stream) : outcome (sample_reader * sample_stream) :=
  Returns (reader, data_buffer).

Definition sample_create : sample_stream -> outcome (sample_reader * sample_stream) :=
  create sample_stream sample_reader sample_open sample_seek_from_begin
         sample_try_get_pos sample_get_encoding_type sample_deserialize_preamble
         sample_json_parse "VERSION" sample_cUnstructuredIrVersions
         (sample_reader * sample_stream) sample_unstructured_create.

(** A four-byte stream of a known version. *)
Definition sample_supported : sample_stream :=
  mkSampleStream IRErrorCode_Success true IRErrorCode_Success "version 0.0.2".

(** A four-byte stream that ends inside its metadata block. *)
Definition sample_incomplete_preamble : sample_stream :=
  mkSampleStream IRErrorCode_Success true IRErrorCode_Incomplete_IR EmptyString.

(** C9 fails on the code: the tag of [sample_incomplete_preamble] decodes and
    names the four-byte encoding, and [create] neither succeeds nor throws
    one of the two classes of the claim; it throws [ErrorCode_Failure]. *)
Lemma create_throws_failure :
  sample_get_encoding_type
    (sample_seek_from_begin (sample_open sample_incomplete_preamble) 0) true =
    (IRErrorCode_Success, true, (sample_incomplete_preamble, 4)) /\
  sample_create sample_incomplete_preamble = Throws (ClpFfiJsException ErrorCode_Failure).
Proof. vm_compute. split; reflexivity. Qed.

Lemma create_error_classes_witness :
  sample_create sample_supported = Returns ((sample_supported, 0), sample_supported).
Proof.
  destruct (create_error_classes sample_stream sample_reader sample_open
              sample_seek_from_begin sample_try_get_pos sample_get_encoding_type
              sample_deserialize_preamble sample_json_parse "VERSION"
              sample_cUnstructuredIrVersions (sample_reader * sample_stream)
              sample_unstructured_create
              sample_supported IRErrorCode_Success true (sample_supported, 4) eq_refl)
    as (_ & _ & Hfour).
  destruct (Hfour eq_refl eq_refl IRErrorCode_Success "version 0.0.2"%string
              (sample_supported, 20) eq_refl) as (_ & Hpreamble).
  destruct (Hpreamble eq_refl) as (_ & Hparsed).
  destruct (Hparsed _ eq_refl) as (_ & Hfield).
  destruct (Hfield _ eq_refl) as (_ & Hstring).
  destruct (Hstring _ eq_refl) as (_ & Hknown).
  change (sample_create sample_supported) with
    (create sample_stream sample_reader sample_open sample_seek_from_begin
       sample_try_get_pos sample_get_encoding_type sample_deserialize_preamble
       sample_json_parse "VERSION" sample_cUnstructuredIrVersions
       (sample_reader * sample_stream) sample_unstructured_create sample_supported).
  rewrite Hknown; [reflexivity|].
  right; right; left; reflexivity.
Defined.

(** A four-byte stream whose version field is a number. *)
Definition sample_numeric_version : sample_stream :=
  mkSampleStream IRErrorCode_Success true IRErrorCode_Success "numeric version".

Lemma get_version_returns_witness :
  get_version sample_reader sample_deserialize_preamble sample_json_parse "VERSION"
    (sample_supported, 4) = (Returns "0.0.2"%string, (sample_supported, 20)).
Proof.
  apply (proj2 (get_version_returns_iff sample_reader sample_deserialize_preamble
                  sample_json_parse "VERSION" (sample_supported, 4)
                  (sample_supported, 20) "0.0.2")).
  exists "version 0.0.2"%string,
         (json_object [("VERSION", json_string "0.0.2");
                       ("TZ_ID", json_string "UTC")])%string.
  repeat split.
Defined.

Lemma create_returns_only_supported_witness :
  exists version,
    parse_version sample_json_parse "VERSION"
      (metadata_bytes_of sample_supported) = Some version /\
    In version sample_cUnstructuredIrVersions.
Proof.
  destruct (create_returns_only_supported sample_stream sample_reader sample_open
              sample_seek_from_begin sample_try_get_pos sample_get_encoding_type
              sample_deserialize_preamble sample_json_parse "VERSION"
              sample_cUnstructuredIrVersions (sample_reader * sample_stream)
              sample_unstructured_create
              sample_supported ((sample_supported, 0), sample_supported))
    as (reader & reader' & bytes & version & Htag & Hpre & Hv & Hin & _).
  - vm_compute. reflexivity.
  - exists version. inversion Htag; subst reader.
    inversion Hpre; subst bytes. split; [exact Hv|exact Hin].
Defined.

Lemma create_throws_only_witness :
  ClpFfiJsException ErrorCode_MetadataCorrupted =
    ClpFfiJsException ErrorCode_MetadataCorrupted \/
  ClpFfiJsException ErrorCode_MetadataCorrupted =
    ClpFfiJsException ErrorCode_Unsupported \/
  ClpFfiJsException ErrorCode_MetadataCorrupted =
    ClpFfiJsException ErrorCode_Failure \/
  exists reader,
    sample_unstructured_create reader sample_numeric_version =
      Throws (ClpFfiJsException ErrorCode_MetadataCorrupted).
Proof.
  apply (create_throws_only sample_stream sample_reader sample_open
           sample_seek_from_begin sample_try_get_pos sample_get_encoding_type
           sample_deserialize_preamble sample_json_parse "VERSION"
           sample_cUnstructuredIrVersions (sample_reader * sample_stream)
           sample_unstructured_create sample_numeric_version).
  vm_compute. reflexivity.
Defined.

End StreamReader.

Module ClpIrV1DecoderCreate.

Import ClpIrV1Decoder.

Section Create.

(** * The CLP core library, as parameters *)

(** The bytes JavaScript hands over, and the decompressor opened on the copy
    of them; the copy is the data buffer the new object owns. *)
Variables DataArray Reader TimestampPattern : Type.

Variable open : DataArray -> Reader.

(** [get_encoding_type(reader, is_four_bytes_encoding)]: the error code, what
    the flag holds afterwards, and the reader. *)
Variable get_encoding_type :
  Reader -> bool -> StreamReader.IRErrorCode * bool * Reader.

(** [LogEventDeserializer<four_byte_encoded_variable_t>::create(reader)]: the
    deserializer, or the error code of the result. *)
Variable LogEventDeserializer_create : Reader -> LogEventDeserializer + errc.

(** [deserializer.get_timestamp_pattern()]. *)
Variable get_timestamp_pattern : LogEventDeserializer -> TimestampPattern.

Variable generic_decode_message :
  string -> list Z -> list string -> list handler_call * option DecodingException.
Variable decode_integer_var : Z -> string.
Variable decode_float_var : Z -> string.
Variable insert_formatted_timestamp : TimestampPattern -> Z -> string -> string.
Variable cLogLevelNames : list string.
Variable UTF8ToString : string -> string.

(** * [ClpIrV1Decoder::create] *)

Definition create (data_array : DataArray) : outcome (t DataArray TimestampPattern) :=
  let data_buffer := data_array in
  let zstd_decompressor := open data_buffer in
  let '(err, is_four_bytes_encoding, zstd_decompressor) :=
    get_encoding_type zstd_decompressor true in
  if negb (StreamReader.IRErrorCode_eqb StreamReader.IRErrorCode_Success err) then
    Throws (ClpJsException ErrorCode_MetadataCorrupted)
  else if Bool.eqb false is_four_bytes_encoding then
    Throws (ClpJsException ErrorCode_Unsupported)
  else
    match LogEventDeserializer_create zstd_decompressor with
    | inr error_code => Throws (ClpJsException ErrorCode_MetadataCorrupted)
    | inl deserializer =>
        Returns (construct data_buffer deserializer (get_timestamp_pattern deserializer))
    end.

(** * Properties of [create] *)

Lemma create_returns_construct (data_array : DataArray)
  (d : t DataArray TimestampPattern) :
  create data_array = Returns d ->
  exists deserializer,
    d = construct data_array deserializer (get_timestamp_pattern deserializer).
Proof.
  unfold create.
  destruct (get_encoding_type (open data_array) true) as [[err four] reader].
  destruct (negb _); [discriminate|].
  destruct (Bool.eqb false four); [discriminate|].
  destruct (LogEventDeserializer_create reader) as [ds|ec]; [|discriminate].
  intros H; inversion H. eauto.
Qed.

Lemma num_deserialize_calls_pass (n : nat) (term : errc) (tail : list effect) :
  num_deserialize_calls tail = 0%nat ->
  num_deserialize_calls ((repeat Deserialize n ++ logged_at term) ++ tail) = n.
Proof.
  unfold num_deserialize_calls. intros Htail.
  rewrite !filter_app, !length_app, Htail.
  replace (filter is_deserialize (logged_at term)) with (@nil effect)
    by (destruct term; reflexivity).
  cbn [length]. rewrite !Nat.add_0_r.
  induction n; simpl; congruence.
Qed.

(** X12. The object [create] returns owns the copy of the input, buffers no
    event, and answers null to every [decode]; its first accepted [build_idx]
    is the one that deserializes, with one call per event of the stream and
    one for what ends it. *)
Theorem create_gives_new_object (data_array : DataArray)
  (d : t DataArray TimestampPattern) :
  create data_array = Returns d ->
  m_data_buffer d = Some data_array /\
  get_estimated_num_events d = 0 /\
  (forall begin_idx end_idx,
      decode generic_decode_message decode_integer_var decode_float_var
             insert_formatted_timestamp cLogLevelNames UTF8ToString
             d begin_idx end_idx =
        (Returns None, [])) /\
  (forall begin_idx end_idx,
      begin_idx = 0 \/ end_idx = 0 ->
      num_deserialize_calls (snd (build_idx d begin_idx end_idx)) =
        S (length (pending (m_deserializer d)))).
Proof.
  intros H. apply create_returns_construct in H as [ds ->].
  split; [reflexivity|]. split; [reflexivity|]. split.
  - intros b e. apply decode_before_build.
  - intros b e Hguard. destruct ds as [evs term].
    destruct (build_idx_construct _ _ data_array evs term
                (get_timestamp_pattern (mkDeserializer evs term)) b e Hguard)
      as (v & _ & _ & E).
    rewrite E. cbn [construct m_deserializer pending].
    destruct (thrown_at term); cbn [snd].
    + rewrite <- (app_nil_r (_ ++ _)). apply num_deserialize_calls_pass. reflexivity.
    + apply num_deserialize_calls_pass. reflexivity.
Qed.

(** X13. [create] throws [Unsupported] exactly when the tag decodes and names
    another encoding than the four-byte one, [MetadataCorrupted] exactly when
    the tag does not decode or the deserializer cannot be created on a
    four-byte stream, and nothing else. *)
Theorem create_exceptions (data_array : DataArray)
  (err : StreamReader.IRErrorCode) (is_four_bytes_encoding : bool) (reader : Reader) :
  get_encoding_type (open data_array) true = (err, is_four_bytes_encoding, reader) ->
  (create data_array = Throws (ClpJsException ErrorCode_Unsupported) <->
   err = StreamReader.IRErrorCode_Success /\ is_four_bytes_encoding = false) /\
  (create data_array = Throws (ClpJsException ErrorCode_MetadataCorrupted) <->
   err <> StreamReader.IRErrorCode_Success \/
   (is_four_bytes_encoding = true /\
    exists error_code, LogEventDeserializer_create reader = inr error_code)) /\
  (forall e,
      create data_array = Throws e ->
      e = ClpJsException ErrorCode_Unsupported \/
      e = ClpJsException ErrorCode_MetadataCorrupted).
Proof.
  intros Htag. unfold create. rewrite Htag.
  destruct err; cbn [StreamReader.IRErrorCode_eqb negb];
    try (split; [split; [discriminate|intros [? _]; discriminate]|];
         split; [split; [left; discriminate|reflexivity]|];
         intros e H; inversion H; auto).
  destruct is_four_bytes_encoding; cbn [Bool.eqb].
  - destruct (LogEventDeserializer_create reader) as [ds|ec].
    + split; [split; [discriminate|intros [_ ?]; discriminate]|].
      split; [|discriminate].
      split; [discriminate|].
      intros [Hne|[_ [ec Hec]]]; [congruence|discriminate].
    + split; [split; [discriminate|intros [_ ?]; discriminate]|].
      split; [|intros e H; inversion H; auto].
      split; [right; eauto|reflexivity].
  - split; [split; [auto|reflexivity]|].
    split; [|intros e H; inversion H; auto].
    split; [discriminate|].
    intros [Hne|[? _]]; [congruence|discriminate].
Qed.

End Create.

(** * A concrete library and concrete streams, to run [create] on *)

(** A deserializer is created when the preamble of the stream can be read;
    every stream here then holds the same two events. *)
Definition sample_deserializer_create (reader : StreamReader.sample_reader)
  : LogEventDeserializer + errc :=
  if StreamReader.IRErrorCode_eqb StreamReader.IRErrorCode_Success
       (StreamReader.preamble_result (fst reader))
  then inl (mkDeserializer [sample_info; sample_warn] no_message_available)
  else inr protocol_error.

Definition sample_create
  : StreamReader.sample_stream -> outcome (t StreamReader.sample_stream string) :=
  create StreamReader.sample_stream StreamReader.sample_reader string
         StreamReader.sample_open StreamReader.sample_get_encoding_type
         sample_deserializer_create (fun _ => "@"%string).

(** A stream whose tag names the eight-byte encoding. *)
Definition sample_eight_byte : StreamReader.sample_stream :=
  StreamReader.mkSampleStream StreamReader.IRErrorCode_Success false
    StreamReader.IRErrorCode_Success "version 0.0.2".

(** The object [create] returns for a supported stream. *)
Definition sample_created : t StreamReader.sample_stream string :=
  construct StreamReader.sample_supported
    (mkDeserializer [sample_info; sample_warn] no_message_available) "@"%string.

Lemma create_gives_new_object_witness :
  get_estimated_num_events sample_created = 0 /\
  decode sample_generic_decode_message sample_decode_var sample_decode_var
         sample_insert_formatted_timestamp sample_cLogLevelNames
              sample_UTF8ToString
         sample_created 0 2 = (Returns None, []) /\
  num_deserialize_calls (snd (build_idx sample_created 0 0)) = 3%nat.
Proof.
  destruct (create_gives_new_object StreamReader.sample_stream
              StreamReader.sample_reader string
              StreamReader.sample_open StreamReader.sample_get_encoding_type
              sample_deserializer_create (fun _ => "@"%string)
              sample_generic_decode_message sample_decode_var sample_decode_var
              sample_insert_formatted_timestamp sample_cLogLevelNames
              sample_UTF8ToString
              StreamReader.sample_supported sample_created)
    as (_ & Hcount & Hnull & Hpass).
  - vm_compute. reflexivity.
  - split; [exact Hcount|]. split; [exact (Hnull 0 2)|].
    apply (Hpass 0 0). left; reflexivity.
Defined.

Lemma create_exceptions_witness :
  sample_create sample_eight_byte = Throws (ClpJsException ErrorCode_Unsupported).
Proof.
  apply (proj2 (proj1 (create_exceptions StreamReader.sample_stream
                         StreamReader.sample_reader string
                         StreamReader.sample_open StreamReader.sample_get_encoding_type
                         sample_deserializer_create (fun _ => "@"%string)
                         sample_eight_byte StreamReader.IRErrorCode_Success false
                         (sample_eight_byte, 4) eq_refl))).
  split; reflexivity.
Defined.

End ClpIrV1DecoderCreate.
